(** * pusoy_dos2: the hand classifier and the round state machine

    A shallow embedding of [src/cards/cards.rs] (cards), [src/game/hands.rs]
    ([Hand::build]) and [src/game/round.rs] ([Round::submit_move] and its
    helpers).  Effects of the Rust code are written out: [Option] and [Result]
    as [option] and [SubmitResult], a panic ([unwrap], [expect], an index out
    of range) and the unbounded [while] loop through the small monad [Exec]. *)

From Stdlib Require Import String List Bool Arith Lia Permutation.
Import ListNotations.

(* ------------------------------------------------------------------------- *)
(** ** Cards ([src/cards/cards.rs]) *)

(** [Rank] and [Suit] are declared in the [cards] module outside [src/]; the
    constructors are the ones the source names, in the order of
    [PlayedCard::previous_rank] and of the tests' suit order. *)
Inductive Rank : Set :=
| Three | Four | Five | Six | Seven | Eight | Nine | Ten
| Jack | Queen | King | Ace | Two.

Inductive Suit : Set := Clubs | Hearts | Diamonds | Spades.

Definition Rank_eq_dec (a b : Rank) : {a = b} + {a <> b}.
Proof. decide equality. Defined.

Definition Suit_eq_dec (a b : Suit) : {a = b} + {a <> b}.
Proof. decide equality. Defined.

Definition Rank_eqb (a b : Rank) : bool := if Rank_eq_dec a b then true else false.
Definition Suit_eqb (a b : Suit) : bool := if Suit_eq_dec a b then true else false.

(** [struct Card { rank, suit, reversed }]; the [SuitContext] of the source
    is kept as its [Suit]. *)
Record Card : Set := mkCard { rank : Rank; suit : Suit; reversed : bool }.

(** [struct PlayedCard { card, joker }] *)
Record PlayedCard : Set := mkPlayedCard { card : Card; joker : bool }.

Definition get_rank (c : PlayedCard) : Rank := rank (card c).
Definition get_suit (c : PlayedCard) : Suit := suit (card c).

(** [PlayedCard::previous_rank]: the fixed chain Three -> ... -> Two. *)
Definition previous_rank (c : PlayedCard) : option Rank :=
  match get_rank c with
  | Three => None
  | Four => Some Three
  | Five => Some Four
  | Six => Some Five
  | Seven => Some Six
  | Eight => Some Seven
  | Nine => Some Eight
  | Ten => Some Nine
  | Jack => Some Ten
  | Queen => Some Jack
  | King => Some Queen
  | Ace => Some King
  | Two => Some Ace
  end.

(* ------------------------------------------------------------------------- *)
(** ** Hands ([src/game/hands.rs]) *)

Inductive TrickType : Set :=
| Straight | Flush | FullHouse | FourOfAKind | StraightFlush | FiveOfAKind.

(** [struct Trick { trick_type, cards: [PlayedCard; 5] }]; the array is the
    (five-element) list it is built from. *)
Record Trick : Set := mkTrick { trick_type : TrickType; cards : list PlayedCard }.

Inductive Hand : Set :=
| Pass
| Single (c : PlayedCard)
| Pair (c0 c1 : PlayedCard)
| Prial (c0 c1 c2 : PlayedCard)
| FiveCardTrick (t : Trick).

(** [hand == Some(Hand::Pass)] *)
Definition is_some_pass (h : option Hand) : bool :=
  match h with Some Pass => true | _ => false end.

(** The cards a hand holds: the fields of its variant, in their order. *)
Definition hand_cards (h : Hand) : list PlayedCard :=
  match h with
  | Pass => []
  | Single c => [c]
  | Pair c0 c1 => [c0; c1]
  | Prial c0 c1 c2 => [c0; c1; c2]
  | FiveCardTrick t => cards t
  end.

(** Execution of Rust code: a value, a panic, or a loop still running when
    its fuel is spent. *)
Inductive Exec (A : Type) : Type :=
| Returns (a : A)
| Panics (msg : string)
| OutOfFuel.
Arguments Returns {A} a.
Arguments Panics {A} msg.
Arguments OutOfFuel {A}.

Definition exec_bind {A B} (m : Exec A) (k : A -> Exec B) : Exec B :=
  match m with
  | Returns a => k a
  | Panics msg => Panics msg
  | OutOfFuel => OutOfFuel
  end.

Notation "x <- m ;; k" := (exec_bind m (fun x => k))
  (at level 61, m at next level, right associativity).

(** [Option::expect] *)
Definition expect {A} (o : option A) (msg : string) : Exec A :=
  match o with Some a => Returns a | None => Panics msg end.

Section Hands.

(** The order in which [c.sort()] leaves the cards when it returns.  It
    rests on [Rank::partial_cmp] and [SuitContext::partial_cmp], declared
    outside [src/], so it is a parameter; whether the sort returns at all is
    decided in [sort_cards_exec] below. *)
Variable sort_cards : list PlayedCard -> list PlayedCard.

(** The iteration order of the [HashMap<Rank, usize>] built by [get_counts]:
    an unspecified order of its entries, hence a parameter. *)
Variable counts_order : list (Rank * nat) -> list (Rank * nat).

(** [*acc.entry(rank).or_insert(0) += 1] on the map, kept as an association
    list in insertion order. *)
Fixpoint count_in (r : Rank) (acc : list (Rank * nat)) : list (Rank * nat) :=
  match acc with
  | [] => [(r, 1)]
  | (r', n) :: t => if Rank_eqb r r' then (r', S n) :: t else (r', n) :: count_in r t
  end.

(** [Hand::get_counts] *)
Definition get_counts (cs : list PlayedCard) : list (Rank * nat) :=
  fold_left (fun acc c => count_in (get_rank c) acc) cs [].

(** [Hand::is_straight]: every card but the first has a previous rank, equal
    to the rank of the card before it. *)
Fixpoint is_straight_from (prev : PlayedCard) (cs : list PlayedCard) : bool :=
  match cs with
  | [] => true
  | c :: t =>
      match previous_rank c with
      | Some r => Rank_eqb (get_rank prev) r
      | None => false
      end && is_straight_from c t
  end.

Definition is_straight (cs : list PlayedCard) : bool :=
  match cs with [] => true | c0 :: t => is_straight_from c0 t end.

(** [Hand::is_flush]: every card has the suit of [c[0]]. *)
Definition is_flush (cs : list PlayedCard) : bool :=
  match cs with
  | [] => true
  | c0 :: _ => forallb (fun c => Suit_eqb (get_suit c) (get_suit c0)) cs
  end.

(** [build_fct!] *)
Definition build_fct (tt : TrickType) (cs : list PlayedCard) : option Hand :=
  Some (FiveCardTrick (mkTrick tt cs)).

(** [Hand::check_valid_pair] *)
Definition check_valid_pair (c0 c1 : PlayedCard) : option Hand :=
  if length (get_counts [c0; c1]) =? 1 then Some (Pair c0 c1) else None.

(** [Hand::check_valid_prial] *)
Definition check_valid_prial (c0 c1 c2 : PlayedCard) : option Hand :=
  if length (get_counts [c0; c1; c2]) =? 1 then Some (Prial c0 c1 c2) else None.

(** All cards have the reversal status of the first one. *)
Definition same_reversal (cs : list PlayedCard) : bool :=
  match cs with
  | [] => true
  | c0 :: _ => forallb (fun c => Bool.eqb (reversed (card c)) (reversed (card c0))) cs
  end.

(** [Hand::sort_cards]: [c.sort()] compares cards with the derived
    [PartialOrd] of [PlayedCard], whose first field [card] is compared by
    [Card::partial_cmp] (in [src/cards/cards.rs]); that panics on two cards of
    different reversal status.  A comparison sort that returns has compared
    every two neighbours of its output (otherwise swapping them would go
    unnoticed), and with mixed statuses some two neighbours differ
    ([sort_order_neighbours] below), so the sort panics exactly when the
    statuses are mixed; on one status it returns the order [sort_cards]. *)
Definition sort_cards_exec (c : list PlayedCard) : Exec (list PlayedCard) :=
  if same_reversal c then Returns (sort_cards c)
  else Panics "Cannot compare cards with different reversal status".

(** [Hand::check_valid_fct].  [*rank_count.values().last().unwrap()] is the
    last count in the map's iteration order (the map has two entries there,
    the default 0 is never read). *)
Definition check_valid_fct (c : list PlayedCard) : Exec (option Hand) :=
  cs <- sort_cards_exec c ;;
  let rank_count := get_counts cs in
  Returns
    match length rank_count with
    | 1 => build_fct FiveOfAKind cs
    | 2 =>
        match last (map snd (counts_order rank_count)) 0 with
        | 3 | 2 => build_fct FullHouse cs
        | 4 | 1 => build_fct FourOfAKind cs
        | _ => None
        end
    | _ =>
        match is_straight cs, is_flush cs with
        | true, true => build_fct StraightFlush cs
        | true, _ => build_fct Straight cs
        | _, true => build_fct Flush cs
        | _, _ => None
        end
    end.

(** [Hand::build]: by [cards.len()]. *)
Definition build (cs : list PlayedCard) : Exec (option Hand) :=
  match cs with
  | [] => Returns (Some Pass)
  | [c0] => Returns (Some (Single c0))
  | [c0; c1] => Returns (check_valid_pair c0 c1)
  | [c0; c1; c2] => Returns (check_valid_prial c0 c1 c2)
  | [_; _; _; _; _] => check_valid_fct cs
  | _ => Returns None
  end.

End Hands.

(* ------------------------------------------------------------------------- *)
(** ** Players and rulesets (declared outside [src/]) *)

(** Modelled from the spec: the [Player] type (section 4.3) is not in [src/].
    Its hand holds [Card::Standard { deck_id, rank, suit }] values, as the
    tests of [round.rs] build them. *)
Record HeldCard : Set := mkHeldCard { deck_id : nat; hrank : Rank; hsuit : Suit }.

Record Player : Set := mkPlayer { id : string; hand : list HeldCard }.

Definition get_id (p : Player) : string := id p.
Definition get_hand (p : Player) : list HeldCard := hand p.

Definition is_empty {A} (l : list A) : bool :=
  match l with [] => true | _ => false end.

(** Modelled from the spec: [Player::has_card] matches rank and suit only
    (the test [deck_id_is_not_checked_when_move_played]). *)
Definition held_matches (r : Rank) (s : Suit) (c : HeldCard) : bool :=
  Rank_eqb (hrank c) r && Suit_eqb (hsuit c) s.

Definition has_card (p : Player) (r : Rank) (s : Suit) : bool :=
  existsb (held_matches r s) (hand p).

(** Modelled from the spec: [Player::play_move] removes the held cards one for
    one, and fails when a requested card is not (or no longer) held. *)
Fixpoint remove_held (r : Rank) (s : Suit) (h : list HeldCard) : option (list HeldCard) :=
  match h with
  | [] => None
  | c :: t =>
      if held_matches r s c then Some t
      else match remove_held r s t with Some t' => Some (c :: t') | None => None end
  end.

Fixpoint remove_all (cs : list PlayedCard) (h : list HeldCard) : option (list HeldCard) :=
  match cs with
  | [] => Some h
  | c :: t =>
      match remove_held (get_rank c) (get_suit c) h with
      | Some h' => remove_all t h'
      | None => None
      end
  end.

Definition play_move (p : Player) (cs : list PlayedCard) : option Player :=
  match remove_all cs (hand p) with
  | Some h => Some (mkPlayer (id p) h)
  | None => None
  end.

(** Modelled from the spec: [FlushPrecedence] (the tests name [Rank]). *)
Inductive FlushPrecedence : Set := FlushByRank | FlushBySuit.

(** Modelled from the spec: [Ruleset { reversals_enabled, flush_precedence }]. *)
Record Ruleset : Set :=
  mkRuleset { reversals_enabled : bool; flush_precedence : FlushPrecedence }.

(* ------------------------------------------------------------------------- *)
(** ** Rounds ([src/game/round.rs]) *)

Inductive SubmitError : Set :=
| FirstRoundPass
| FirstHandMustContainLowestCard
| HandNotHighEnough
| NotCurrentPlayer
| InvalidHand
| PlayerDoesntHaveCard.

(** [struct Round]; the arrays [[Suit; 4]] and [[Rank; 13]] are lists. *)
Record Round : Set := mkRound {
  players : list Player;
  next_player : option string;
  last_move : option Hand;
  last_player : option string;
  suit_order : list Suit;
  rank_order : list Rank;
  ruleset : Ruleset
}.

Inductive SubmitResult : Set :=
| Ok (r : Round)
| Err (e : SubmitError).

(** [arr[0]] of the fixed-size orders; the default is never read on a round
    built from arrays. *)
Definition suit0 (r : Round) : Suit := hd Clubs (suit_order r).
Definition rank0 (r : Round) : Rank := hd Three (rank_order r).

(** [Round::get_player] (over a player list: [self.players]) *)
Definition get_player (ps : list Player) (user_id : string) : option Player :=
  find (fun p => String.eqb (get_id p) user_id) ps.

(** [Round::get_players_still_in] *)
Definition get_players_still_in (ps : list Player) : list Player :=
  filter (fun p => negb (is_empty (get_hand p))) ps.

(** [Round::get_starting_player] *)
Definition get_starting_player (r : Round) : option string :=
  match find (fun p => has_card p (rank0 r) (suit0 r)) (players r) with
  | Some p => Some (get_id p)
  | None => None
  end.

(** [Round::get_next_player] *)
Definition get_next_player (r : Round) : option string :=
  match next_player r with
  | None =>
      if 1 <? length (get_players_still_in (players r))
      then get_starting_player r else None
  | Some x => Some x
  end.

(** [Round::get_updated_players] *)
Definition get_updated_players (ps : list Player) (player : Player) : list Player :=
  map (fun p => if String.eqb (get_id p) (get_id player) then player else p) ps.

(** [Round::contains_lowest_card] *)
Definition contains_lowest_card (r : Round) (cs : list PlayedCard) : bool :=
  existsb (fun c => Rank_eqb (get_rank c) (rank0 r) && Suit_eqb (get_suit c) (suit0 r)) cs.

(** [Round::check_starting_move] *)
Definition check_starting_move (r : Round) (cs : list PlayedCard) : option SubmitError :=
  if is_empty cs then Some FirstRoundPass
  else if negb (contains_lowest_card r cs) then Some FirstHandMustContainLowestCard
  else None.

(** The loop of [get_next_player_in_rotation]: [index = i + 1] for the last
    [i] whose id is [user_id], 0 when there is none. *)
Fixpoint rotation_index (ps : list Player) (user_id : string) (i index : nat) : nat :=
  match ps with
  | [] => index
  | p :: t =>
      rotation_index t user_id (S i) (if String.eqb (get_id p) user_id then S i else index)
  end.

(** [Round::get_next_player_in_rotation] (over [self.players]) *)
Definition get_next_player_in_rotation (ps : list Player) (user_id : string) : Exec string :=
  match ps with
  | [] => Panics "called `Option::unwrap()` on a `None` value"
  | p0 :: _ =>
      if String.eqb (get_id (last ps p0)) user_id then Returns (get_id p0)
      else match nth_error ps (rotation_index ps user_id 0 0) with
           | Some p => Returns (get_id p)
           | None => Panics "index out of bounds"
           end
  end.

(** [Round::get_updated_suit_and_rank_order] *)
Definition get_updated_suit_and_rank_order (r : Round) (h : option Hand)
  : list Suit * list Rank :=
  if reversals_enabled (ruleset r) then
    match match h with Some x => x | None => Pass end with
    | FiveCardTrick (mkTrick FourOfAKind _) => (rev (suit_order r), rev (rank_order r))
    | _ => (suit_order r, rank_order r)
    end
  else (suit_order r, rank_order r).

(** The [while] loop of [get_last_move_and_new_player]: skip the players
    whose hand (in [self.players], before the move) is empty, clearing the
    table when the rotation reaches the last player.  [fuel] bounds the
    iterations of the loop. *)
Fixpoint skip_empty (fuel : nat) (r : Round) (last_id : string)
    (next : string) (new_last_move : option Hand) : Exec (option Hand * string) :=
  match get_player (players r) next with
  | None => Panics "called `Option::unwrap()` on a `None` value"
  | Some p =>
      if is_empty (get_hand p) then
        match fuel with
        | O => OutOfFuel
        | S f =>
            next' <- get_next_player_in_rotation (players r) next ;;
            skip_empty f r last_id next'
              (if String.eqb next' last_id then Some Pass else new_last_move)
        end
      else Returns (new_last_move, next)
  end.

(** [new_last_player.clone().unwrap_or_else(|| "invalid_player")] *)
Definition last_id_of (new_last_player : option string) : string :=
  match new_last_player with Some x => x | None => "invalid_player" end.

(** [Round::get_last_move_and_new_player] *)
Definition get_last_move_and_new_player (fuel : nat) (r : Round) (user_id : string)
    (h : option Hand) (new_last_player : option string) : Exec (option Hand * string) :=
  next <- get_next_player_in_rotation (players r) user_id ;;
  let new_last_move := if is_some_pass h then last_move r else h in
  let new_last_move :=
    if String.eqb next (last_id_of new_last_player) then Some Pass else new_last_move in
  skip_empty fuel r (last_id_of new_last_player) next new_last_move.

Section Submit.

Variable sort_cards : list PlayedCard -> list PlayedCard.
Variable counts_order : list (Rank * nat) -> list (Rank * nat).

(** [compare_hands(last_move, hand, flush_precedence, suit_order, rank_order)]
    is declared outside [src/]; the spec treats it as an injected comparator
    (section 6), so it is a parameter. *)
Variable compare_hands :
  Hand -> Hand -> FlushPrecedence -> list Suit -> list Rank -> bool.

(** [Round::hand_beats_last_move] *)
Definition hand_beats_last_move (r : Round) (h : Hand) : Exec bool :=
  lm <- expect (last_move r) "cannot compare when no last_move" ;;
  Returns (compare_hands lm h (flush_precedence (ruleset r)) (suit_order r) (rank_order r)).

(** [Round::submit_move] from [let mut player = ...] on. *)
Definition submit_accepted (fuel : nat) (r : Round) (user_id : string)
    (cs : list PlayedCard) (h : option Hand) : Exec SubmitResult :=
  player <- expect (get_player (players r) user_id) "invalid player!" ;;
  match play_move player cs with
  | None => Returns (Err PlayerDoesntHaveCard)
  | Some player' =>
      let ps := get_updated_players (players r) player' in
      let new_last_player := if is_some_pass h then last_player r else Some user_id in
      lm_np <- get_last_move_and_new_player fuel r user_id h new_last_player ;;
      let output_next_player :=
        if 1 <? length (get_players_still_in ps) then Some (snd lm_np) else None in
      let orders := get_updated_suit_and_rank_order r h in
      Returns (Ok (mkRound ps output_next_player (fst lm_np) new_last_player
                     (fst orders) (snd orders) (ruleset r)))
  end.

(** [Round::submit_move]: [fuel] bounds the skipping loop. *)
Definition submit_move (fuel : nat) (r : Round) (user_id : string)
    (cs : list PlayedCard) : Exec SubmitResult :=
  np <- expect (get_next_player r) "invalid_player" ;;
  if negb (String.eqb user_id np) then Returns (Err NotCurrentPlayer) else
  h <- build sort_cards counts_order cs ;;
  match h with
  | None => Returns (Err InvalidHand)
  | Some hv =>
      match last_move r with
      | None =>
          match check_starting_move r cs with
          | Some e => Returns (Err e)
          | None => submit_accepted fuel r user_id cs h
          end
      | Some _ =>
          if negb (is_some_pass (last_move r)) && negb (is_some_pass h) then
            beats <- hand_beats_last_move r hv ;;
            if negb beats then Returns (Err HandNotHighEnough)
            else submit_accepted fuel r user_id cs h
          else submit_accepted fuel r user_id cs h
      end
  end.

End Submit.

(* ------------------------------------------------------------------------- *)
(** ** Comparing cards ([impl PartialOrd for Card], [src/cards/cards.rs]) *)

Section CardOrder.

(** [Rank::partial_cmp] and [SuitContext::partial_cmp] are declared outside
    [src/]: parameters. *)
Variable rank_cmp : Rank -> Rank -> option comparison.
Variable suit_cmp : Suit -> Suit -> option comparison.

(** [Card::partial_cmp]: a panic across reversal statuses; reversed cards
    are compared the other way round; rank first, suit on equal ranks. *)
Definition card_partial_cmp (self other : Card) : Exec (option comparison) :=
  if negb (Bool.eqb (reversed self) (reversed other)) then
    Panics "Cannot compare cards with different reversal status"
  else
    let '(a, b) := if reversed self then (other, self) else (self, other) in
    match rank_cmp (rank a) (rank b) with
    | Some Eq => Returns (suit_cmp (suit a) (suit b))
    | x => Returns x
    end.

End CardOrder.

(* ------------------------------------------------------------------------- *)
(** ** Concrete instances for evaluation *)

(** Modelled from the spec: the card order used by [Vec::sort] (section 4.1:
    rank precedence, then suit precedence), with the declaration orders of
    [Rank] and [Suit]; the [Ord] impls of [Rank] and [SuitContext] are outside
    [src/]. *)
Definition rank_index (r : Rank) : nat :=
  match r with
  | Three => 0 | Four => 1 | Five => 2 | Six => 3 | Seven => 4 | Eight => 5
  | Nine => 6 | Ten => 7 | Jack => 8 | Queen => 9 | King => 10 | Ace => 11
  | Two => 12
  end.

Definition suit_index (s : Suit) : nat :=
  match s with Clubs => 0 | Hearts => 1 | Diamonds => 2 | Spades => 3 end.

(** Modelled from the spec: [partial_cmp] of [Rank] and of [SuitContext]
    under the default orders (declaration order of the constructors). *)
Definition rank_cmp_decl (a b : Rank) : option comparison :=
  Some (Nat.compare (rank_index a) (rank_index b)).
Definition suit_cmp_decl (a b : Suit) : option comparison :=
  Some (Nat.compare (suit_index a) (suit_index b)).

Definition card_key (c : PlayedCard) : nat := 4 * rank_index (get_rank c) + suit_index (get_suit c).

Fixpoint insert_card (c : PlayedCard) (l : list PlayedCard) : list PlayedCard :=
  match l with
  | [] => [c]
  | x :: t => if card_key c <=? card_key x then c :: x :: t else x :: insert_card c t
  end.

Fixpoint sort_by_key (l : list PlayedCard) : list PlayedCard :=
  match l with [] => [] | c :: t => insert_card c (sort_by_key t) end.

(** Two iteration orders of a map: insertion order and its reverse. *)
Definition insertion_order (l : list (Rank * nat)) : list (Rank * nat) := l.
Definition reverse_order (l : list (Rank * nat)) : list (Rank * nat) := rev l.

Definition pc (r : Rank) (s : Suit) : PlayedCard := mkPlayedCard (mkCard r s false) false.
Definition held (r : Rank) (s : Suit) : HeldCard := mkHeldCard 0 r s.

Definition std_suits : list Suit := [Clubs; Hearts; Diamonds; Spades].
Definition std_ranks : list Rank :=
  [Three; Four; Five; Six; Seven; Eight; Nine; Ten; Jack; Queen; King; Ace; Two].
Definition std_rules : Ruleset := mkRuleset true FlushByRank.

Fixpoint index_of {A} (eqb : A -> A -> bool) (x : A) (l : list A) : nat :=
  match l with [] => 0 | y :: t => if eqb x y then 0 else S (index_of eqb x t) end.

(** Modelled from the spec: an instance of the comparator of section 6
    ([compare_hands] is outside [src/]).  A single beats a single whose card
    is lower under the ordering context (rank precedence in [rank_order],
    then suit precedence in [suit_order]); any hand beats a pass; nothing
    else is judged to beat.  It is irreflexive, as the contract requires. *)
Definition singles_cmp (reference candidate : Hand) (_ : FlushPrecedence)
    (so : list Suit) (ro : list Rank) : bool :=
  let key c := 4 * index_of Rank_eqb (get_rank c) ro + index_of Suit_eqb (get_suit c) so in
  match reference, candidate with
  | Single a, Single b => key a <? key b
  | Pass, Pass => false
  | Pass, _ => true
  | _, _ => false
  end.

(** The players the rotation computes from [x] on: each next one is
    [get_next_player_in_rotation] of the previous, every one but the last
    has an empty hand (in [ps]) and the last one holds cards. *)
Inductive skip_path (ps : list Player) : string -> list string -> Prop :=
| skip_stop (x : string) (p : Player) :
    get_player ps x = Some p -> get_hand p <> [] -> skip_path ps x [x]
| skip_next (x : string) (p : Player) (y : string) (path : list string) :
    get_player ps x = Some p -> get_hand p = [] ->
    get_next_player_in_rotation ps x = Returns y ->
    skip_path ps y path -> skip_path ps x (x :: path).

(** Rounds of the tests of [round.rs] and of the spec's scenarios. *)

(** [when_player_wins_next_player_starts]: "a"%string passes, "b"%string (out of cards)
    made the last move, "c"%string still holds a card. *)
Definition round_b_won : Round :=
  mkRound [mkPlayer "a"%string [held Three Clubs; held Three Clubs]; mkPlayer "b"%string [];
           mkPlayer "c"%string [held Three Clubs]]
    (Some "a"%string) (Some (Pair (pc Three Clubs) (pc Three Clubs))) (Some "b"%string)
    std_suits std_ranks std_rules.

(** A fresh round: "a"%string holds the lowest card, Three of Clubs. *)
Definition round_open : Round :=
  mkRound [mkPlayer "a"%string [held Three Clubs; held Four Hearts; held Five Spades];
           mkPlayer "b"%string [held Six Clubs]]
    None None None std_suits std_ranks std_rules.

(** A round in progress: "a"%string is to play on a single Five of Clubs by "b"%string. *)
Definition round_single5 : Round :=
  mkRound [mkPlayer "a"%string [held Three Clubs]; mkPlayer "b"%string [held Four Clubs; held Five Clubs]]
    (Some "a"%string) (Some (Single (pc Five Clubs))) (Some "b"%string)
    std_suits std_ranks std_rules.

(** A fresh round where "a"%string opens with four Threes and a Four. *)
Definition four_threes : list PlayedCard :=
  [pc Three Clubs; pc Three Hearts; pc Three Diamonds; pc Three Spades; pc Four Clubs].

Definition round_four : Round :=
  mkRound [mkPlayer "a"%string [held Three Clubs; held Three Hearts; held Three Diamonds;
                         held Three Spades; held Four Clubs];
           mkPlayer "b"%string [held Five Clubs]]
    (Some "a"%string) None None std_suits std_ranks std_rules.

(** A finished round: only "b"%string holds cards and no next player is set. *)
Definition round_over : Round :=
  mkRound [mkPlayer "a"%string []; mkPlayer "b"%string [held Five Clubs]]
    None (Some Pass) (Some "a"%string) std_suits std_ranks std_rules.

(** A round where nobody holds cards any more, "a" to play on a pass. *)
Definition round_all_empty : Round :=
  mkRound [mkPlayer "a"%string []; mkPlayer "b"%string []]
    (Some "a"%string) (Some Pass) (Some "b"%string) std_suits std_ranks std_rules.

(** A fresh round where "a" opens with four Threes and "b" answers with four
    Fives. *)
Definition fours_a : list PlayedCard :=
  [pc Three Clubs; pc Three Hearts; pc Three Diamonds; pc Three Spades; pc Four Clubs].
Definition fours_b : list PlayedCard :=
  [pc Five Clubs; pc Five Hearts; pc Five Diamonds; pc Five Spades; pc Six Hearts].

Definition round_fours : Round :=
  mkRound [mkPlayer "a"%string [held Three Clubs; held Three Hearts; held Three Diamonds;
                                 held Three Spades; held Four Clubs; held Six Clubs];
           mkPlayer "b"%string [held Five Clubs; held Five Hearts; held Five Diamonds;
                                 held Five Spades; held Six Hearts; held Seven Clubs]]
    None None None std_suits std_ranks std_rules.

(** Hands of the tests of [hands.rs] *)

(** Five clubs of ranks Five, Three, Three, Four, Four: three distinct ranks. *)
Definition clubs_53344 : list PlayedCard :=
  [pc Five Clubs; pc Three Clubs; pc Three Clubs; pc Four Clubs; pc Four Clubs].

(** Five, Three, Six, Four, Seven: the straight of the test [straight_is_a_straight]. *)
Definition straight_53647 : list PlayedCard :=
  [pc Five Clubs; pc Three Clubs; pc Six Hearts; pc Four Clubs; pc Seven Hearts].

(** Three, Three, Three, Four, Four: the full house of the test [full_house_is_a_full_house]. *)
Definition full_33344 : list PlayedCard :=
  [pc Three Clubs; pc Three Clubs; pc Three Clubs; pc Four Clubs; pc Four Clubs].

(** The same five cards with the last one reversed. *)
Definition full_33344_mixed : list PlayedCard :=
  [pc Three Clubs; pc Three Clubs; pc Three Clubs; pc Four Clubs;
   mkPlayedCard (mkCard Four Clubs true) false].

(** Counting ranks *)

(** The count kept for [r], 0 when [r] is not a key. *)
Fixpoint lookup (r : Rank) (acc : list (Rank * nat)) : nat :=
  match acc with
  | [] => 0
  | (r', n) :: t => if Rank_eqb r r' then n else lookup r t
  end.

Definition sum_counts (acc : list (Rank * nat)) : nat := fold_right plus 0 (map snd acc).

Definition fold_counts (cs : list PlayedCard) (acc : list (Rank * nat)) :=
  fold_left (fun acc c => count_in (get_rank c) acc) cs acc.

(* ========================================================================= *)
(** * Lemmas *)

Lemma Rank_eqb_eq (a b : Rank) : Rank_eqb a b = true <-> a = b.
Proof. unfold Rank_eqb; destruct (Rank_eq_dec a b); split; congruence. Qed.

Lemma Suit_eqb_eq (a b : Suit) : Suit_eqb a b = true <-> a = b.
Proof. unfold Suit_eqb; destruct (Suit_eq_dec a b); split; congruence. Qed.

Lemma Rank_eqb_refl (a : Rank) : Rank_eqb a a = true.
Proof. apply Rank_eqb_eq; reflexivity. Qed.

Lemma Rank_eqb_neq (a b : Rank) : a <> b -> Rank_eqb a b = false.
Proof. intro H; unfold Rank_eqb; destruct (Rank_eq_dec a b); congruence. Qed.

(** ** Counting ranks *)

Section Counts.

Lemma count_in_keys (r x : Rank) (acc : list (Rank * nat)) :
  In x (map fst (count_in r acc)) <-> x = r \/ In x (map fst acc).
Proof.
  induction acc as [| [r' n] t IH]; simpl; [intuition congruence |].
  destruct (Rank_eqb r r') eqn:E; simpl.
  - apply Rank_eqb_eq in E; subst; intuition congruence.
  - rewrite IH; intuition congruence.
Qed.

Lemma count_in_nodup (r : Rank) (acc : list (Rank * nat)) :
  NoDup (map fst acc) -> NoDup (map fst (count_in r acc)).
Proof.
  induction acc as [| [r' n] t IH]; simpl; intro Hnd.
  - constructor; [simpl; tauto | constructor].
  - inversion Hnd as [| ? ? Hnin Hnd']; subst.
    destruct (Rank_eqb r r') eqn:E; simpl; constructor; auto.
    rewrite count_in_keys. intros [-> | Hin]; [| tauto].
    rewrite Rank_eqb_refl in E; discriminate.
Qed.

Lemma count_in_sum (r : Rank) (acc : list (Rank * nat)) :
  sum_counts (count_in r acc) = S (sum_counts acc).
Proof.
  unfold sum_counts; induction acc as [| [r' n] t IH]; simpl; [reflexivity |].
  destruct (Rank_eqb r r'); simpl; [reflexivity | rewrite IH; lia].
Qed.

Lemma count_in_lookup (r x : Rank) (acc : list (Rank * nat)) :
  lookup x (count_in r acc) = lookup x acc + (if Rank_eqb x r then 1 else 0).
Proof.
  induction acc as [| [r' n] t IH]; simpl.
  - destruct (Rank_eqb x r); reflexivity.
  - destruct (Rank_eqb r r') eqn:E; simpl.
    + apply Rank_eqb_eq in E; subst.
      destruct (Rank_eqb x r'); lia.
    + rewrite IH. destruct (Rank_eqb x r') eqn:E'; [| reflexivity].
      apply Rank_eqb_eq in E'; subst.
      destruct (Rank_eqb r' r) eqn:E''; [| lia].
      apply Rank_eqb_eq in E''; subst; rewrite Rank_eqb_refl in E; discriminate.
Qed.

Lemma fold_counts_keys (cs : list PlayedCard) (acc : list (Rank * nat)) (x : Rank) :
  In x (map fst (fold_counts cs acc)) <-> In x (map get_rank cs) \/ In x (map fst acc).
Proof.
  revert acc; induction cs as [| c t IH]; intro acc; simpl; [tauto |].
  unfold fold_counts in *; simpl; rewrite IH, count_in_keys; intuition congruence.
Qed.

Lemma fold_counts_nodup (cs : list PlayedCard) (acc : list (Rank * nat)) :
  NoDup (map fst acc) -> NoDup (map fst (fold_counts cs acc)).
Proof.
  revert acc; induction cs as [| c t IH]; intros acc H; [exact H |].
  unfold fold_counts in *; simpl; apply IH, count_in_nodup, H.
Qed.

Lemma fold_counts_sum (cs : list PlayedCard) (acc : list (Rank * nat)) :
  sum_counts (fold_counts cs acc) = length cs + sum_counts acc.
Proof.
  revert acc; induction cs as [| c t IH]; intro acc; [reflexivity |].
  unfold fold_counts in *; simpl; rewrite IH, count_in_sum; lia.
Qed.

Lemma fold_counts_lookup (cs : list PlayedCard) (acc : list (Rank * nat)) (x : Rank) :
  lookup x (fold_counts cs acc) = lookup x acc + count_occ Rank_eq_dec (map get_rank cs) x.
Proof.
  revert acc; induction cs as [| c t IH]; intro acc; simpl; [lia |].
  unfold fold_counts in *; rewrite IH, count_in_lookup.
  unfold Rank_eqb; destruct (Rank_eq_dec (get_rank c) x), (Rank_eq_dec x (get_rank c));
    subst; try congruence; lia.
Qed.

Lemma get_counts_keys (cs : list PlayedCard) (x : Rank) :
  In x (map fst (get_counts cs)) <-> In x (map get_rank cs).
Proof. unfold get_counts; fold (fold_counts cs []); rewrite fold_counts_keys; simpl; tauto. Qed.

Lemma get_counts_nodup (cs : list PlayedCard) : NoDup (map fst (get_counts cs)).
Proof. unfold get_counts; fold (fold_counts cs []); apply fold_counts_nodup; constructor. Qed.

Lemma get_counts_sum (cs : list PlayedCard) : sum_counts (get_counts cs) = length cs.
Proof. unfold get_counts; fold (fold_counts cs []); rewrite fold_counts_sum; change (sum_counts []) with 0; lia. Qed.

Lemma get_counts_lookup (cs : list PlayedCard) (x : Rank) :
  lookup x (get_counts cs) = count_occ Rank_eq_dec (map get_rank cs) x.
Proof. unfold get_counts; fold (fold_counts cs []); rewrite fold_counts_lookup; simpl; lia. Qed.

Lemma lookup_In (x : Rank) (n : nat) (acc : list (Rank * nat)) :
  NoDup (map fst acc) -> In (x, n) acc -> lookup x acc = n.
Proof.
  induction acc as [| [r' m] t IH]; simpl; intros Hnd Hin; [contradiction |].
  inversion Hnd as [| ? ? Hnin Hnd']; subst.
  destruct Hin as [Heq | Hin].
  - injection Heq as -> ->; rewrite Rank_eqb_refl; reflexivity.
  - destruct (Rank_eqb x r') eqn:E.
    + apply Rank_eqb_eq in E; subst. exfalso; apply Hnin.
      apply (in_map fst) in Hin; exact Hin.
    + apply IH; assumption.
Qed.

(** The number of distinct ranks does not depend on the order of the cards. *)
Lemma get_counts_length_perm (cs cs' : list PlayedCard) :
  Permutation cs cs' -> length (get_counts cs) = length (get_counts cs').
Proof.
  intro Hp.
  rewrite <- (length_map fst (get_counts cs)), <- (length_map fst (get_counts cs')).
  apply Permutation_length, NoDup_Permutation; try apply get_counts_nodup.
  intro x; rewrite !get_counts_keys; split; apply Permutation_in;
    [| symmetry]; apply Permutation_map; exact Hp.
Qed.

End Counts.

Lemma get_counts_two (c0 c1 : PlayedCard) :
  length (get_counts [c0; c1]) = if Rank_eqb (get_rank c1) (get_rank c0) then 1 else 2.
Proof. unfold get_counts; simpl; destruct (Rank_eqb (get_rank c1) (get_rank c0)); reflexivity. Qed.

(** ** Straights and flushes *)

Lemma previous_rank_index (c : PlayedCard) (r : Rank) :
  previous_rank c = Some r -> S (rank_index r) = rank_index (get_rank c).
Proof. unfold previous_rank; destruct (get_rank c); intro H; inversion H; reflexivity. Qed.

(** Along a straight the fixed-chain index of the ranks grows strictly. *)
Lemma is_straight_from_increasing (prev : PlayedCard) (cs : list PlayedCard) :
  is_straight_from prev cs = true ->
  (forall c, In c cs -> rank_index (get_rank prev) < rank_index (get_rank c)) /\
  NoDup (map get_rank (prev :: cs)).
Proof.
  revert prev; induction cs as [| c t IH]; intros prev H; simpl.
  - split; [tauto | repeat constructor; simpl; tauto].
  - apply andb_true_iff in H as [Hc Ht].
    destruct (previous_rank c) as [r |] eqn:Hp; [| discriminate].
    apply Rank_eqb_eq in Hc. apply previous_rank_index in Hp.
    destruct (IH c Ht) as [Hlt Hnd].
    assert (Hpc : rank_index (get_rank prev) < rank_index (get_rank c)) by (subst; lia).
    split.
    + intros x [-> | Hx]; [exact Hpc | specialize (Hlt x Hx); lia].
    + constructor; [| exact Hnd].
      intros Hin. change (In (get_rank prev) (map get_rank (c :: t))) in Hin.
      apply in_map_iff in Hin as [x [Hx Hin]].
      destruct Hin as [<- | Hin]; [rewrite Hx in Hpc; lia |].
      specialize (Hlt x Hin); rewrite Hx in Hlt; lia.
Qed.

Lemma is_straight_nodup (cs : list PlayedCard) :
  is_straight cs = true -> NoDup (map get_rank cs).
Proof.
  destruct cs as [| c t]; simpl; intro H; [constructor |].
  exact (proj2 (is_straight_from_increasing c t H)).
Qed.

Lemma is_flush_iff (cs : list PlayedCard) :
  is_flush cs = true <-> forall c c', In c cs -> In c' cs -> get_suit c = get_suit c'.
Proof.
  destruct cs as [| c0 t]; simpl; [split; [tauto | reflexivity] |].
  rewrite andb_true_iff, forallb_forall, Suit_eqb_eq. split.
  - intros [_ H] c c' Hc Hc'.
    assert (E : forall x, c0 = x \/ In x t -> get_suit x = get_suit c0).
    { intros x [<- | Hx]; [reflexivity |]. apply Suit_eqb_eq, H, Hx. }
    rewrite (E c Hc), (E c' Hc'); reflexivity.
  - intros H; split; [reflexivity |].
    intros x Hx; apply Suit_eqb_eq, H; tauto.
Qed.

Lemma Permutation_two_inv {A} (l : list A) (x y : A) :
  Permutation l [x; y] -> l = [x; y] \/ l = [y; x].
Proof. intro H; apply Permutation_length_2_inv; symmetry; exact H. Qed.

Lemma five_cards (cs : list PlayedCard) :
  length cs = 5 -> exists c0 c1 c2 c3 c4, cs = [c0; c1; c2; c3; c4].
Proof.
  intro H; do 5 (destruct cs as [| ? cs]; simpl in H; try discriminate).
  destruct cs; [eauto 10 | discriminate].
Qed.

(** ** The concrete sort is a permutation *)

Lemma insert_card_perm (c : PlayedCard) (l : list PlayedCard) :
  Permutation (insert_card c l) (c :: l).
Proof.
  induction l as [| x t IH]; simpl; [reflexivity |].
  destruct (card_key c <=? card_key x); [reflexivity |].
  rewrite IH; apply perm_swap.
Qed.

Lemma sort_by_key_perm (l : list PlayedCard) : Permutation (sort_by_key l) l.
Proof.
  induction l as [| c t IH]; simpl; [reflexivity |].
  rewrite insert_card_perm, IH; reflexivity.
Qed.

Lemma insertion_order_perm (l : list (Rank * nat)) : Permutation (insertion_order l) l.
Proof. reflexivity. Qed.

Lemma reverse_order_perm (l : list (Rank * nat)) : Permutation (reverse_order l) l.
Proof. symmetry; apply Permutation_rev. Qed.

Lemma build_five (sort_cards : list PlayedCard -> list PlayedCard)
    (counts_order : list (Rank * nat) -> list (Rank * nat)) (cs : list PlayedCard) :
  length cs = 5 ->
  build sort_cards counts_order cs = check_valid_fct sort_cards counts_order cs.
Proof. intro H; destruct (five_cards cs H) as (c0 & c1 & c2 & c3 & c4 & ->); reflexivity. Qed.

Lemma same_reversal_iff (cs : list PlayedCard) :
  same_reversal cs = true <->
  forall c c', In c cs -> In c' cs -> reversed (card c) = reversed (card c').
Proof.
  unfold same_reversal; destruct cs as [| c0 t].
  - split; [intros _ c c' [] | reflexivity].
  - rewrite forallb_forall. split.
    + intros H c c' Hc Hc'.
      pose proof (Bool.eqb_prop _ _ (H c Hc)) as E.
      pose proof (Bool.eqb_prop _ _ (H c' Hc')) as E'.
      congruence.
    + intros H c Hc. apply Bool.eqb_true_iff, H; [exact Hc | left; reflexivity].
Qed.

Lemma same_reversal_false (cs : list PlayedCard) :
  (exists c c', In c cs /\ In c' cs /\ reversed (card c) <> reversed (card c')) ->
  same_reversal cs = false.
Proof.
  intros (c & c' & Hc & Hc' & Hne).
  destruct (same_reversal cs) eqn:E; [| reflexivity].
  exfalso; apply Hne, (proj1 (same_reversal_iff cs) E c c' Hc Hc').
Qed.

(** Five cards of mixed reversal status make [Hand::build] panic in the sort. *)
Lemma build_five_mixed (sort_cards : list PlayedCard -> list PlayedCard)
    (counts_order : list (Rank * nat) -> list (Rank * nat)) (cs : list PlayedCard) :
  length cs = 5 ->
  (exists c c', In c cs /\ In c' cs /\ reversed (card c) <> reversed (card c')) ->
  build sort_cards counts_order cs =
    Panics "Cannot compare cards with different reversal status"%string.
Proof.
  intros Hl Hm. rewrite build_five by exact Hl.
  unfold check_valid_fct, sort_cards_exec. rewrite (same_reversal_false cs Hm).
  reflexivity.
Qed.

(** ** Unfolding [submit_move] *)

Lemma submit_accepted_ok (fuel : nat) (r : Round) (u : string) (cs : list PlayedCard)
    (h : option Hand) (r' : Round) :
  submit_accepted fuel r u cs h = Returns (Ok r') ->
  exists p p' lm np,
    get_player (players r) u = Some p /\
    play_move p cs = Some p' /\
    get_last_move_and_new_player fuel r u h
      (if is_some_pass h then last_player r else Some u) = Returns (lm, np) /\
    r' = mkRound (get_updated_players (players r) p')
           (if 1 <? length (get_players_still_in (get_updated_players (players r) p'))
            then Some np else None)
           lm (if is_some_pass h then last_player r else Some u)
           (fst (get_updated_suit_and_rank_order r h))
           (snd (get_updated_suit_and_rank_order r h))
           (ruleset r).
Proof.
  unfold submit_accepted.
  destruct (get_player (players r) u) as [p |] eqn:Ep; simpl; [| discriminate].
  destruct (play_move p cs) as [p' |] eqn:Epm; [| discriminate].
  destruct (get_last_move_and_new_player fuel r u h _) as [[lm np] | |] eqn:Elm;
    simpl; try discriminate.
  intro E; injection E as <-. exists p, p', lm, np; auto.
Qed.

Lemma submit_accepted_err (fuel : nat) (r : Round) (u : string) (cs : list PlayedCard)
    (h : option Hand) (e : SubmitError) :
  submit_accepted fuel r u cs h = Returns (Err e) -> e = PlayerDoesntHaveCard.
Proof.
  unfold submit_accepted.
  destruct (get_player (players r) u) as [p |]; simpl; [| discriminate].
  destruct (play_move p cs) as [p' |]; [| congruence].
  destruct (get_last_move_and_new_player fuel r u h _) as [[lm np] | |];
    simpl; discriminate.
Qed.

Lemma submit_move_ok sort_cards counts_order compare_hands
    (fuel : nat) (r : Round) (u : string) (cs : list PlayedCard) (r' : Round) :
  submit_move sort_cards counts_order compare_hands fuel r u cs = Returns (Ok r') ->
  get_next_player r = Some u /\
  exists hv, build sort_cards counts_order cs = Returns (Some hv) /\
             submit_accepted fuel r u cs (Some hv) = Returns (Ok r').
Proof.
  unfold submit_move.
  destruct (get_next_player r) as [np |]; simpl; [| discriminate].
  destruct (String.eqb u np) eqn:Eu; simpl; [| discriminate].
  apply String.eqb_eq in Eu; subst np.
  destruct (build sort_cards counts_order cs) as [[hv |] | |]; cbn [exec_bind]; try discriminate.
  intro H; split; [reflexivity | exists hv; split; [reflexivity |]].
  destruct (last_move r) as [lm |] eqn:Elm.
  - destruct (negb (is_some_pass (Some lm)) && negb (is_some_pass (Some hv))); [| exact H].
    unfold hand_beats_last_move in H; rewrite Elm in H; simpl in H.
    destruct (compare_hands lm hv _ _ _); simpl in H; [exact H | discriminate].
  - destruct (check_starting_move r cs); [discriminate | exact H].
Qed.

(** Case analysis on every rank comparison of the goal. *)
Ltac rank_cases :=
  repeat (unfold Rank_eqb in *;
          match goal with
          | |- context [Rank_eq_dec ?a ?b] => destruct (Rank_eq_dec a b); simpl
          end).

(** ** The skipping loop *)

Lemma skip_path_head (ps : list Player) (x : string) (path : list string) :
  skip_path ps x path -> exists rest, path = x :: rest.
Proof. intro H; destruct H; eauto. Qed.

Lemma last_cons_nonempty {A} (a d d' : A) (l : list A) :
  l <> [] -> last (a :: l) d = last l d'.
Proof.
  destruct l as [| b t]; intro Hne; [contradiction |]; clear Hne.
  change (last (b :: t) d = last (b :: t) d').
  revert b; induction t as [| c t IH]; intro b; [reflexivity |].
  change (last (c :: t) d = last (c :: t) d'); apply IH.
Qed.

Lemma skip_empty_path (fuel : nat) (r : Round) (lid x : string) (nlm lm : option Hand)
    (np : string) :
  skip_empty fuel r lid x nlm = Returns (lm, np) ->
  exists path, skip_path (players r) x path /\ last path x = np /\
    lm = if existsb (fun y => String.eqb y lid) (tl path) then Some Pass else nlm.
Proof.
  revert x nlm; induction fuel as [| f IH]; intros x nlm; simpl;
    destruct (get_player (players r) x) as [p |] eqn:Ep; try discriminate;
    destruct (is_empty (get_hand p)) eqn:Ee; try discriminate.
  - intro E; injection E as <- <-. exists [x]; split; [| auto].
    apply (skip_stop _ x p Ep); destruct (get_hand p); discriminate.
  - destruct (get_next_player_in_rotation (players r) x) as [y | |] eqn:Ey;
      simpl; try discriminate.
    intro H; apply IH in H as [path [Hp [Hl Hlm]]].
    destruct (skip_path_head _ _ _ Hp) as [rest ->].
    exists (x :: y :: rest); split; [| split].
    + apply (skip_next _ x p y); auto. destruct (get_hand p); [reflexivity | discriminate].
    + rewrite <- Hl; apply last_cons_nonempty; discriminate.
    + rewrite Hlm; simpl. destruct (String.eqb y lid); simpl;
        [destruct (existsb _ rest); reflexivity | reflexivity].
  - intro E; injection E as <- <-. exists [x]; split; [| auto].
    apply (skip_stop _ x p Ep); destruct (get_hand p); discriminate.
Qed.

Lemma last_move_and_new_player_path (fuel : nat) (r : Round) (u : string)
    (h : option Hand) (nlp : option string) (lm : option Hand) (np : string) :
  get_last_move_and_new_player fuel r u h nlp = Returns (lm, np) ->
  exists x0 path,
    get_next_player_in_rotation (players r) u = Returns x0 /\
    skip_path (players r) x0 path /\ last path x0 = np /\
    lm = if existsb (fun y => String.eqb y (last_id_of nlp)) path then Some Pass
         else if is_some_pass h then last_move r else h.
Proof.
  unfold get_last_move_and_new_player.
  destruct (get_next_player_in_rotation (players r) u) as [x0 | |] eqn:Ex0;
    simpl; try discriminate.
  intro H; apply skip_empty_path in H as [path [Hp [Hl Hlm]]].
  destruct (skip_path_head _ _ _ Hp) as [rest Hrest].
  exists x0, path; repeat split; auto.
  rewrite Hlm, Hrest; simpl.
  destruct (String.eqb x0 (last_id_of nlp)); simpl;
    [destruct (existsb _ rest); reflexivity | reflexivity].
Qed.

(** ** Seats and the rotation, for distinct player ids *)

Lemma rotation_index_absent (ps : list Player) (u : string) (k idx : nat) :
  ~ In u (map get_id ps) -> rotation_index ps u k idx = idx.
Proof.
  revert k idx; induction ps as [| a t IH]; intros k idx H; simpl; [reflexivity |].
  destruct (String.eqb (get_id a) u) eqn:E.
  - apply String.eqb_eq in E. exfalso; apply H; left; exact E.
  - apply IH. intro Hin; apply H; right; exact Hin.
Qed.

Lemma rotation_index_nodup (ps : list Player) (i : nat) (p : Player) (k idx : nat) :
  NoDup (map get_id ps) -> nth_error ps i = Some p ->
  rotation_index ps (get_id p) k idx = k + S i.
Proof.
  revert i k idx; induction ps as [| a t IH]; intros i k idx Hnd Hi;
    [destruct i; discriminate |].
  simpl in Hnd; inversion Hnd as [| ? ? Hnin Hnd']; subst.
  destruct i as [| i']; simpl in Hi |- *.
  - injection Hi as ->. rewrite String.eqb_refl, rotation_index_absent by assumption. lia.
  - assert (Hne : get_id a <> get_id p).
    { intro E; apply Hnin; rewrite E; apply in_map; eapply nth_error_In; eauto. }
    rewrite (proj2 (String.eqb_neq _ _) Hne), (IH i' (S k) idx Hnd' Hi). lia.
Qed.

Lemma nodup_nth_id (ps : list Player) (i j : nat) (p q : Player) :
  NoDup (map get_id ps) -> nth_error ps i = Some p -> nth_error ps j = Some q ->
  get_id p = get_id q -> i = j.
Proof.
  intros Hnd Hi Hj E. apply (proj1 (NoDup_nth_error _) Hnd).
  - rewrite length_map; apply nth_error_Some; congruence.
  - rewrite !nth_error_map, Hi, Hj; simpl; congruence.
Qed.

Lemma get_player_nth (ps : list Player) (x : string) (p : Player) :
  get_player ps x = Some p -> exists i, nth_error ps i = Some p /\ get_id p = x.
Proof.
  intro H; apply find_some in H as [Hin He]. apply String.eqb_eq in He.
  destruct (In_nth_error _ _ Hin) as [i Hi]; eauto.
Qed.

Lemma get_player_unique (ps : list Player) (x : string) (p q : Player) (i : nat) :
  NoDup (map get_id ps) -> get_player ps x = Some p -> nth_error ps i = Some q ->
  get_id q = x -> p = q.
Proof.
  intros Hnd Hp Hq Hid. destruct (get_player_nth _ _ _ Hp) as [j [Hj Hjid]].
  assert (j = i) as -> by (apply (nodup_nth_id ps j i p q); congruence). congruence.
Qed.

Lemma nth_error_last {A} (a d : A) (t : list A) :
  nth_error (a :: t) (length t) = Some (last (a :: t) d).
Proof.
  revert a; induction t as [| b t IH]; intro a; [reflexivity |].
  change (nth_error (b :: t) (length t) = Some (last (b :: t) d)). apply IH.
Qed.

(** The player after seat [i] is the one at seat [i + 1], wrapping around. *)
Lemma rotation_nodup (ps : list Player) (i : nat) (p : Player) :
  NoDup (map get_id ps) -> nth_error ps i = Some p ->
  exists q, nth_error ps (S i mod length ps) = Some q /\
            get_next_player_in_rotation ps (get_id p) = Returns (get_id q).
Proof.
  intros Hnd Hi. destruct ps as [| p0 t]; [destruct i; discriminate |].
  assert (Hlt : i < length (p0 :: t)) by (apply nth_error_Some; congruence).
  unfold get_next_player_in_rotation.
  destruct (String.eqb (get_id (last (p0 :: t) p0)) (get_id p)) eqn:E.
  - apply String.eqb_eq in E.
    assert (i = length t) as ->
      by (symmetry; apply (nodup_nth_id _ _ _ _ _ Hnd (nth_error_last p0 p0 t) Hi E)).
    exists p0. change (length (p0 :: t)) with (S (length t)).
    rewrite Nat.Div0.mod_same. split; reflexivity.
  - rewrite (rotation_index_nodup _ i p 0 0 Hnd Hi). simpl plus.
    assert (Hi' : i <> length t).
    { intros ->. rewrite (nth_error_last p0 p0 t) in Hi. injection Hi as Hp.
      apply (proj1 (String.eqb_neq _ _) E). exact (f_equal get_id Hp). }
    assert (Hs : S i < length (p0 :: t)) by (simpl in Hlt |- *; lia).
    rewrite Nat.mod_small by exact Hs.
    destruct (nth_error (p0 :: t) (S i)) as [q |] eqn:Eq.
    + exists q; split; reflexivity.
    + apply nth_error_Some in Hs; contradiction.
Qed.

Lemma mod_shift (n i m : nat) : (S i mod n + m) mod n = (i + S m) mod n.
Proof. rewrite Nat.Div0.add_mod_idemp_l. f_equal; lia. Qed.

(** The players a rotation path visits are consecutive seats: every seat
    before the last one holds an empty hand and the last one holds cards. *)
Lemma skip_path_positions (ps : list Player) (x : string) (path : list string)
    (j : nat) (p : Player) :
  NoDup (map get_id ps) -> skip_path ps x path ->
  nth_error ps j = Some p -> get_id p = x ->
  exists k q,
    nth_error ps ((j + k) mod length ps) = Some q /\ get_id q = last path x /\
    get_hand q <> [] /\
    forall m, m < k ->
      exists q', nth_error ps ((j + m) mod length ps) = Some q' /\ get_hand q' = [].
Proof.
  intros Hnd Hp; revert j p.
  induction Hp as [x p0 Ep Hne | x p0 y path Ep He Ey Hp IH]; intros j p Hj Hid;
    assert (Hlt : j < length ps) by (apply nth_error_Some; congruence);
    rewrite (get_player_unique ps x p0 p j Hnd Ep Hj Hid) in *.
  - exists 0, p. rewrite Nat.add_0_r, Nat.mod_small by exact Hlt.
    repeat split; auto. intros m Hm; lia.
  - destruct (rotation_nodup ps j p Hnd Hj) as [q1 [Hq1 Hrot]].
    rewrite Hid, Ey in Hrot. injection Hrot as Hy.
    destruct (IH _ _ Hq1 (eq_sym Hy)) as [k [q [Hq [Hqid [Hqne Hm]]]]].
    exists (S k), q. rewrite <- mod_shift. repeat split; auto.
    + rewrite Hqid. destruct (skip_path_head _ _ _ Hp) as [rest ->].
      symmetry; apply last_cons_nonempty; discriminate.
    + intros [| m] Hmk.
      * exists p. rewrite Nat.add_0_r, Nat.mod_small by exact Hlt. auto.
      * rewrite <- mod_shift. apply Hm; lia.
Qed.

Lemma get_updated_players_ids (ps : list Player) (p' : Player) :
  map get_id (get_updated_players ps p') = map get_id ps.
Proof.
  unfold get_updated_players; rewrite map_map. apply map_ext. intro a.
  destruct (String.eqb (get_id a) (get_id p')) eqn:E; [apply String.eqb_eq in E |]; auto.
Qed.

Lemma get_updated_players_other (ps : list Player) (i t : nat) (p p' : Player) :
  NoDup (map get_id ps) -> nth_error ps i = Some p -> get_id p' = get_id p -> t <> i ->
  nth_error (get_updated_players ps p') t = nth_error ps t.
Proof.
  intros Hnd Hi Hid Ht. unfold get_updated_players; rewrite nth_error_map.
  destruct (nth_error ps t) as [x |] eqn:Ex; [simpl | reflexivity].
  destruct (String.eqb (get_id x) (get_id p')) eqn:E; [| reflexivity].
  apply String.eqb_eq in E. rewrite Hid in E.
  exfalso; apply Ht; exact (nodup_nth_id ps t i x p Hnd Ex Hi E).
Qed.

Lemma play_move_id (p p' : Player) (cs : list PlayedCard) :
  play_move p cs = Some p' -> get_id p' = get_id p.
Proof.
  unfold play_move; destruct (remove_all cs (hand p)); [| discriminate].
  intro E; injection E as <-; reflexivity.
Qed.

Lemma still_in_none (l : list Player) :
  (forall q, In q l -> get_hand q = []) -> get_players_still_in l = [].
Proof.
  induction l as [| a l IH]; intro H; [reflexivity |].
  unfold get_players_still_in; simpl. rewrite (H a (or_introl eq_refl)); simpl.
  apply IH; intros q Hq; apply H; right; exact Hq.
Qed.

(** When every seat but [i] holds an empty hand, at most one player is
    still in. *)
Lemma still_in_at_most_one (l : list Player) (i : nat) :
  (forall t q, t <> i -> nth_error l t = Some q -> get_hand q = []) ->
  length (get_players_still_in l) <= 1.
Proof.
  revert i; induction l as [| a l IH]; intros i H; [simpl; lia |].
  destruct i as [| i'].
  - assert (E : get_players_still_in l = []).
    { apply still_in_none; intros q Hq. destruct (In_nth_error _ _ Hq) as [t Ht].
      apply (H (S t) q); [discriminate | exact Ht]. }
    unfold get_players_still_in in *; simpl; rewrite E.
    destruct (negb (is_empty (get_hand a))); simpl; lia.
  - assert (Ha : get_hand a = []) by (apply (H 0 a); [discriminate | reflexivity]).
    unfold get_players_still_in; simpl; rewrite Ha; simpl.
    apply (IH i'); intros t q Ht Hq; apply (H (S t)); [lia | exact Hq].
Qed.

Lemma mod_wrap (n a : nat) : n <= a -> a < n + n -> a mod n = a - n.
Proof.
  intros H1 H2. replace a with ((a - n) + 1 * n) at 1 by lia.
  rewrite Nat.Div0.mod_add. apply Nat.mod_small; lia.
Qed.

Lemma seat_shift_ne (n i k : nat) : i < n -> 1 <= k < n -> (i + k) mod n <> i.
Proof.
  intros Hi Hk. destruct (Nat.lt_ge_cases (i + k) n).
  - rewrite Nat.mod_small by lia; lia.
  - rewrite mod_wrap by lia; lia.
Qed.

Lemma seat_cover (n i t : nat) :
  i < n -> t < n -> t <> i -> exists m, m < n - 1 /\ (i + S m) mod n = t.
Proof.
  intros Hi Ht Hti. destruct (Nat.lt_ge_cases i t).
  - exists (t - S i); split; [lia |]. rewrite Nat.mod_small by lia; lia.
  - exists (n - S i + t); split; [lia |]. rewrite mod_wrap by lia; lia.
Qed.

(* ========================================================================= *)
(** * Claims *)

(** ** The classifier by cardinality *)

(** C1: [Hand::build] classifies by the number of cards: no card is a pass,
    one card a single of that card, two cards a pair exactly when their ranks
    agree (else no hand), three cards a prial exactly when the three ranks
    agree (else no hand), and four or six-or-more cards are never a hand. *)
Theorem build_by_cardinality
    (sort_cards : list PlayedCard -> list PlayedCard)
    (counts_order : list (Rank * nat) -> list (Rank * nat)) :
  build sort_cards counts_order [] = Returns (Some Pass) /\
  (forall c, build sort_cards counts_order [c] = Returns (Some (Single c))) /\
  (forall c0 c1,
      (get_rank c0 = get_rank c1 ->
         build sort_cards counts_order [c0; c1] = Returns (Some (Pair c0 c1))) /\
      (get_rank c0 <> get_rank c1 ->
         build sort_cards counts_order [c0; c1] = Returns None)) /\
  (forall c0 c1 c2,
      (get_rank c0 = get_rank c1 /\ get_rank c1 = get_rank c2 ->
         build sort_cards counts_order [c0; c1; c2] = Returns (Some (Prial c0 c1 c2))) /\
      (~ (get_rank c0 = get_rank c1 /\ get_rank c1 = get_rank c2) ->
         build sort_cards counts_order [c0; c1; c2] = Returns None)) /\
  (forall cs, length cs = 4 -> build sort_cards counts_order cs = Returns None) /\
  (forall cs, 6 <= length cs -> build sort_cards counts_order cs = Returns None).
Proof.
  split; [reflexivity |]. split; [reflexivity |].
  split; [| split; [| split]].
  - intros c0 c1; simpl; unfold check_valid_pair, get_counts; simpl.
    split; intro H; rank_cases; congruence.
  - intros c0 c1 c2; simpl; unfold check_valid_prial, get_counts; simpl.
    split; intro H; rank_cases; try reflexivity; exfalso;
      (destruct H; congruence) || (apply H; split; congruence).
  - intros cs H; do 5 (destruct cs as [| ? cs]; simpl in H; try discriminate); reflexivity.
  - intros cs H; do 6 (destruct cs as [| ? cs]; simpl in H; try lia); reflexivity.
Qed.

(** ** Five cards *)

(** C2 (counterexample): five clubs with three distinct ranks are not
    rejected: [Hand::build] classifies them as a flush (the test
    [flush_is_a_flush] of [hands.rs] asserts this very hand). *)
Lemma build_flush_three_ranks :
  length (get_counts clubs_53344) = 3 /\
  build sort_by_key insertion_order clubs_53344 =
    Returns (Some (FiveCardTrick (mkTrick Flush
      [pc Three Clubs; pc Three Clubs; pc Four Clubs; pc Four Clubs; pc Five Clubs]))).
Proof. split; reflexivity. Qed.

(** C2 (amended): for five cards with at least three distinct ranks,
    [Hand::build] panics in the sort when the cards do not all share one
    reversal status.  When they do, it checks straight (on the sorted cards,
    each rank the fixed-chain successor of the previous one) and flush (all
    five cards of one suit): both give a straight flush, straight alone a
    straight, flush alone a flush, neither no hand.  A straight always has
    five distinct ranks; a flush is recognised whatever the rank
    distribution. *)
Theorem build_five_many_ranks
    (sort_cards : list PlayedCard -> list PlayedCard)
    (counts_order : list (Rank * nat) -> list (Rank * nat))
    (Hsort : forall l, Permutation (sort_cards l) l)
    (cs : list PlayedCard) :
  length cs = 5 -> 3 <= length (get_counts cs) ->
  ((exists c c', In c cs /\ In c' cs /\ reversed (card c) <> reversed (card c')) ->
     build sort_cards counts_order cs =
       Panics "Cannot compare cards with different reversal status"%string) /\
  ((forall c c', In c cs -> In c' cs -> reversed (card c) = reversed (card c')) ->
     build sort_cards counts_order cs =
       Returns
         match is_straight (sort_cards cs), is_flush (sort_cards cs) with
         | true, true => Some (FiveCardTrick (mkTrick StraightFlush (sort_cards cs)))
         | true, false => Some (FiveCardTrick (mkTrick Straight (sort_cards cs)))
         | false, true => Some (FiveCardTrick (mkTrick Flush (sort_cards cs)))
         | false, false => None
         end) /\
  (is_straight (sort_cards cs) = true -> NoDup (map get_rank cs)) /\
  (is_flush (sort_cards cs) = true <->
     forall c c', In c cs -> In c' cs -> get_suit c = get_suit c').
Proof.
  intros Hlen H3.
  pose proof (Hsort cs) as Hp.
  split; [| split; [| split]].
  - exact (build_five_mixed sort_cards counts_order cs Hlen).
  - intro Hsame. apply same_reversal_iff in Hsame.
    rewrite build_five by exact Hlen. unfold check_valid_fct, sort_cards_exec.
    rewrite Hsame; cbn [exec_bind]; cbv zeta.
    rewrite (get_counts_length_perm _ _ Hp).
    destruct (length (get_counts cs)) as [| [| [| n]]]; try lia.
    destruct (is_straight (sort_cards cs)), (is_flush (sort_cards cs)); reflexivity.
  - intro Hs. apply is_straight_nodup in Hs.
    eapply Permutation_NoDup; [apply Permutation_map, Hp | exact Hs].
  - rewrite is_flush_iff. split; intros H c c' Hc Hc'; apply H.
    + apply (Permutation_in c (Permutation_sym Hp) Hc).
    + apply (Permutation_in c' (Permutation_sym Hp) Hc').
    + apply (Permutation_in c Hp Hc).
    + apply (Permutation_in c' Hp Hc').
Qed.

Lemma build_five_many_ranks_witness :
  length straight_53647 = 5 /\ 3 <= length (get_counts straight_53647) /\
  build sort_by_key insertion_order straight_53647 =
    Returns (Some (FiveCardTrick (mkTrick Straight
      [pc Three Clubs; pc Four Clubs; pc Five Clubs; pc Six Hearts; pc Seven Hearts]))).
Proof.
  assert (Hl : length straight_53647 = 5) by reflexivity.
  assert (H3 : 3 <= length (get_counts straight_53647)) by (vm_compute; lia).
  split; [exact Hl | split; [exact H3 |]].
  destruct (build_five_many_ranks sort_by_key insertion_order sort_by_key_perm
              straight_53647 Hl H3) as [_ [E _]].
  rewrite E; [reflexivity |].
  apply same_reversal_iff; reflexivity.
Defined.

(** C3 (counterexample): three Threes and two Fours, two ranks in groups of
    sizes 3 and 2, are no full house when one card is reversed:
    [Hand::build] panics in the sort, comparing cards of different reversal
    status. *)
Lemma build_two_ranks_mixed_reversal :
  length (get_counts full_33344_mixed) = 2 /\
  count_occ Rank_eq_dec (map get_rank full_33344_mixed) Three = 3 /\
  build sort_by_key reverse_order full_33344_mixed =
    Panics "Cannot compare cards with different reversal status"%string.
Proof. split; [| split]; reflexivity. Qed.

(** C3 (amended): for five cards with exactly two distinct ranks,
    [Hand::build] panics in the sort when the cards do not all share one
    reversal status.  When they do, it gives a full house when the groups
    have sizes 3 and 2 (some rank occurs three times) and four of a kind when
    they have sizes 4 and 1 (some rank occurs four times), whatever the
    iteration order of the count map. *)
Theorem build_five_two_ranks
    (sort_cards : list PlayedCard -> list PlayedCard)
    (counts_order : list (Rank * nat) -> list (Rank * nat))
    (Hsort : forall l, Permutation (sort_cards l) l)
    (Horder : forall m, Permutation (counts_order m) m)
    (cs : list PlayedCard) :
  length cs = 5 -> length (get_counts cs) = 2 ->
  ((exists c c', In c cs /\ In c' cs /\ reversed (card c) <> reversed (card c')) ->
     build sort_cards counts_order cs =
       Panics "Cannot compare cards with different reversal status"%string) /\
  ((forall c c', In c cs -> In c' cs -> reversed (card c) = reversed (card c')) ->
   ((exists r, count_occ Rank_eq_dec (map get_rank cs) r = 3) ->
      build sort_cards counts_order cs =
        Returns (Some (FiveCardTrick (mkTrick FullHouse (sort_cards cs))))) /\
   ((exists r, count_occ Rank_eq_dec (map get_rank cs) r = 4) ->
      build sort_cards counts_order cs =
        Returns (Some (FiveCardTrick (mkTrick FourOfAKind (sort_cards cs)))))).
Proof.
  intros Hlen H2.
  split; [exact (build_five_mixed sort_cards counts_order cs Hlen) |].
  intro Hsame. apply same_reversal_iff in Hsame.
  pose proof (Hsort cs) as Hp.
  rewrite build_five by exact Hlen. unfold check_valid_fct, sort_cards_exec.
  rewrite Hsame; cbn [exec_bind]; cbv zeta.
  rewrite <- (get_counts_length_perm _ _ Hp) in H2.
  (* the two entries of the count map of the sorted cards *)
  assert (Hsum := get_counts_sum (sort_cards cs)).
  rewrite (Permutation_length Hp), Hlen in Hsum.
  assert (Hlk : forall r, lookup r (get_counts (sort_cards cs)) =
                          count_occ Rank_eq_dec (map get_rank cs) r).
  { intro r; rewrite get_counts_lookup.
    apply Permutation_count_occ, Permutation_map, Hp. }
  destruct (get_counts (sort_cards cs)) as [| [a na] [| [b nb] [|]]];
    simpl in H2; try discriminate.
  unfold sum_counts in Hsum; simpl in Hsum.
  assert (Hv : last (map snd (counts_order [(a, na); (b, nb)])) 0 = nb \/
               last (map snd (counts_order [(a, na); (b, nb)])) 0 = na).
  { destruct (Permutation_two_inv _ _ _ (Horder [(a, na); (b, nb)])) as [E | E];
      rewrite E; simpl; auto. }
  assert (Hr_ab : forall r k, 0 < k ->
            count_occ Rank_eq_dec (map get_rank cs) r = k -> na = k \/ nb = k).
  { intros r k Hk Hr; rewrite <- Hlk in Hr; simpl in Hr.
    destruct (Rank_eqb r a); [auto |].
    destruct (Rank_eqb r b); [auto | lia]. }
  split; intros [r Hr].
  - destruct (Hr_ab r 3 ltac:(lia) Hr) as [E | E];
      [assert (nb = 2) by lia | assert (na = 2) by lia]; subst;
      destruct Hv as [-> | ->]; reflexivity.
  - destruct (Hr_ab r 4 ltac:(lia) Hr) as [E | E];
      [assert (nb = 1) by lia | assert (na = 1) by lia]; subst;
      destruct Hv as [-> | ->]; reflexivity.
Qed.

Lemma build_five_two_ranks_witness :
  length full_33344 = 5 /\ length (get_counts full_33344) = 2 /\
  build sort_by_key reverse_order full_33344 =
    Returns (Some (FiveCardTrick (mkTrick FullHouse (sort_by_key full_33344)))).
Proof.
  assert (Hl : length full_33344 = 5) by reflexivity.
  assert (H2 : length (get_counts full_33344) = 2) by reflexivity.
  split; [exact Hl | split; [exact H2 |]].
  apply (proj1 (proj2 (build_five_two_ranks sort_by_key reverse_order sort_by_key_perm
                  reverse_order_perm full_33344 Hl H2)
                  (proj1 (same_reversal_iff full_33344) eq_refl))).
  exists Three; reflexivity.
Defined.

(** ** The round state machine *)

Lemma not_current_player_first sort_cards counts_order compare_hands
    (fuel : nat) (r : Round) (u np : string) (cs : list PlayedCard) :
  get_next_player r = Some np -> u <> np ->
  submit_move sort_cards counts_order compare_hands fuel r u cs = Returns (Err NotCurrentPlayer).
Proof.
  intros Hnp Hu; unfold submit_move; rewrite Hnp; simpl.
  apply String.eqb_neq in Hu; rewrite Hu; reflexivity.
Qed.

(** C4 (counterexample): in a fresh round, the current player submits two
    cards of different ranks without the Three of Clubs: the submission is
    rejected as [InvalidHand], not [FirstHandMustContainLowestCard]. *)
Lemma first_move_invalid_hand_first :
  last_move round_open = None /\
  get_next_player round_open = Some "a"%string /\
  contains_lowest_card round_open [pc Four Hearts; pc Five Spades] = false /\
  submit_move sort_by_key insertion_order singles_cmp 2 round_open "a"%string
    [pc Four Hearts; pc Five Spades] = Returns (Err InvalidHand).
Proof. repeat split; reflexivity. Qed.

(** C4 (amended): in a fresh round ([last_move = None]), for submissions by
    the current player: an empty list is rejected as [FirstRoundPass]; cards
    that form no hand are rejected as [InvalidHand]; a non-empty list forming
    a hand without the card of rank [rank_order[0]] and suit [suit_order[0]]
    is rejected as [FirstHandMustContainLowestCard]; a hand containing that
    card passes both checks and goes on to the acceptance steps. *)
Theorem first_move_checks sort_cards counts_order compare_hands
    (fuel : nat) (r : Round) (u : string) :
  last_move r = None -> get_next_player r = Some u ->
  submit_move sort_cards counts_order compare_hands fuel r u [] =
    Returns (Err FirstRoundPass) /\
  (forall cs, build sort_cards counts_order cs = Returns None ->
     submit_move sort_cards counts_order compare_hands fuel r u cs =
       Returns (Err InvalidHand)) /\
  (forall cs hv, cs <> [] -> build sort_cards counts_order cs = Returns (Some hv) ->
     (forall c, In c cs -> ~ (get_rank c = rank0 r /\ get_suit c = suit0 r)) ->
     submit_move sort_cards counts_order compare_hands fuel r u cs =
       Returns (Err FirstHandMustContainLowestCard)) /\
  (forall cs hv, build sort_cards counts_order cs = Returns (Some hv) ->
     (exists c, In c cs /\ get_rank c = rank0 r /\ get_suit c = suit0 r) ->
     submit_move sort_cards counts_order compare_hands fuel r u cs =
       submit_accepted fuel r u cs (Some hv) /\
     submit_move sort_cards counts_order compare_hands fuel r u cs <>
       Returns (Err FirstRoundPass) /\
     submit_move sort_cards counts_order compare_hands fuel r u cs <>
       Returns (Err FirstHandMustContainLowestCard)).
Proof.
  intros Hlm Hnp.
  assert (Hself : String.eqb u u = true) by apply String.eqb_refl.
  unfold submit_move; rewrite Hnp; simpl; rewrite Hself; simpl.
  split; [rewrite Hlm; reflexivity |].
  split; [intros cs Hb; rewrite Hb; reflexivity |].
  split.
  - intros cs hv Hne Hb Hno. rewrite Hb; cbn [exec_bind]; rewrite Hlm.
    unfold check_starting_move.
    destruct cs as [| c t]; [contradiction |]; simpl is_empty; cbv iota.
    assert (Hc : contains_lowest_card r (c :: t) = false).
    { apply not_true_iff_false; unfold contains_lowest_card.
      rewrite existsb_exists; intros [x [Hx Hxl]].
      apply andb_true_iff in Hxl as [Hr Hs].
      apply (Hno x Hx); split; [apply Rank_eqb_eq | apply Suit_eqb_eq]; assumption. }
    rewrite Hc; reflexivity.
  - intros cs hv Hb [c [Hc [Hr Hs]]]. rewrite Hb; cbn [exec_bind]; rewrite Hlm.
    unfold check_starting_move.
    assert (Hne : is_empty cs = false) by (destruct cs; [contradiction | reflexivity]).
    assert (Hcl : contains_lowest_card r cs = true).
    { unfold contains_lowest_card; apply existsb_exists; exists c; split; [exact Hc |].
      apply andb_true_iff; split; [apply Rank_eqb_eq | apply Suit_eqb_eq]; assumption. }
    rewrite Hne, Hcl; simpl.
    split; [reflexivity |].
    split; intro E; apply submit_accepted_err in E; discriminate.
Qed.

Lemma first_move_checks_witness :
  submit_move sort_by_key insertion_order singles_cmp 2 round_open "a"%string [] =
    Returns (Err FirstRoundPass) /\
  submit_move sort_by_key insertion_order singles_cmp 2 round_open "a"%string [pc Four Hearts] =
    Returns (Err FirstHandMustContainLowestCard).
Proof.
  destruct (first_move_checks sort_by_key insertion_order singles_cmp 2 round_open "a"%string
              eq_refl eq_refl) as [H0 [_ [H1 _]]].
  split; [exact H0 |].
  apply (H1 [pc Four Hearts] (Single (pc Four Hearts))); [discriminate | reflexivity |].
  intros c [<- | []]; simpl; intros [E _]; discriminate.
Defined.

(** C5 (counterexample): on a Single Five of Clubs, a player who is not the
    current player submits the same Single: neither hand is a pass and the
    comparator does not judge the new hand to beat the last one (no hand
    beats an identical one), yet the error is [NotCurrentPlayer]. *)
Lemma hand_not_high_enough_not_current :
  last_move round_single5 = Some (Single (pc Five Clubs)) /\
  build sort_by_key insertion_order [pc Five Clubs] = Returns (Some (Single (pc Five Clubs))) /\
  singles_cmp (Single (pc Five Clubs)) (Single (pc Five Clubs)) FlushByRank
    std_suits std_ranks = false /\
  submit_move sort_by_key insertion_order singles_cmp 2 round_single5 "b"%string
    [pc Five Clubs] = Returns (Err NotCurrentPlayer).
Proof. repeat split; reflexivity. Qed.

(** C5 (amended): in a round with [last_move = Some h], a submission by a
    player other than the current one is rejected as [NotCurrentPlayer]
    before its cards are looked at.  [HandNotHighEnough] is returned only to
    the current player for cards forming a hand [hv] with [h] and [hv] not
    passes and the comparator not judging [hv] to beat [h]; to the current
    player such a submission is always rejected that way.  When [h] or the
    submitted hand is a pass, no comparator is consulted (the outcome is the
    same for every comparator) and [HandNotHighEnough] is never returned. *)
Theorem hand_not_high_enough_iff sort_cards counts_order compare_hands
    (fuel : nat) (r : Round) (h : Hand) :
  last_move r = Some h ->
  (forall u np cs, get_next_player r = Some np -> u <> np ->
     submit_move sort_cards counts_order compare_hands fuel r u cs =
       Returns (Err NotCurrentPlayer)) /\
  (forall u cs,
     submit_move sort_cards counts_order compare_hands fuel r u cs =
       Returns (Err HandNotHighEnough) ->
     exists hv, get_next_player r = Some u /\
       build sort_cards counts_order cs = Returns (Some hv) /\ h <> Pass /\ hv <> Pass /\
       compare_hands h hv (flush_precedence (ruleset r)) (suit_order r) (rank_order r)
         = false) /\
  (forall u cs hv, get_next_player r = Some u ->
     build sort_cards counts_order cs = Returns (Some hv) -> h <> Pass -> hv <> Pass ->
     compare_hands h hv (flush_precedence (ruleset r)) (suit_order r) (rank_order r)
       = false ->
     submit_move sort_cards counts_order compare_hands fuel r u cs =
       Returns (Err HandNotHighEnough)) /\
  (forall u cs, h = Pass \/ build sort_cards counts_order cs = Returns (Some Pass) ->
     (forall compare_hands',
        submit_move sort_cards counts_order compare_hands fuel r u cs =
        submit_move sort_cards counts_order compare_hands' fuel r u cs) /\
     submit_move sort_cards counts_order compare_hands fuel r u cs <>
       Returns (Err HandNotHighEnough)).
Proof.
  intros Hlm.
  assert (Hpass : forall x : Hand, negb (is_some_pass (Some x)) = true <-> x <> Pass).
  { intros []; simpl; split; congruence. }
  split; [| split; [| split]].
  - intros u np cs Hnp Hu. exact (not_current_player_first _ _ _ _ _ _ _ _ Hnp Hu).
  - intros u cs. unfold submit_move.
    destruct (get_next_player r) as [np |]; simpl; [| discriminate].
    destruct (String.eqb u np) eqn:Eu; simpl; [| discriminate].
    apply String.eqb_eq in Eu; subst np.
    destruct (build sort_cards counts_order cs) as [[hv |] | |]; cbn [exec_bind];
      try discriminate.
    rewrite Hlm.
    destruct (negb (is_some_pass (Some h))) eqn:Eh;
      destruct (negb (is_some_pass (Some hv))) eqn:Ehv; simpl;
      try (intro E; apply submit_accepted_err in E; discriminate).
    unfold hand_beats_last_move; rewrite Hlm; simpl.
    destruct (compare_hands h hv _ _ _) eqn:Ec; simpl;
      [intro E; apply submit_accepted_err in E; discriminate |].
    intros _; exists hv; repeat split; auto; apply Hpass; assumption.
  - intros u cs hv Hnp Hb Hh Hhv Hc. unfold submit_move.
    rewrite Hnp; simpl; rewrite String.eqb_refl; simpl; rewrite Hb; cbn [exec_bind].
    rewrite Hlm.
    apply Hpass in Hh; apply Hpass in Hhv; rewrite Hh, Hhv; simpl.
    unfold hand_beats_last_move; rewrite Hlm; simpl; rewrite Hc; reflexivity.
  - intros u cs Hp.
    assert (Hno : forall hv, build sort_cards counts_order cs = Returns (Some hv) ->
              negb (is_some_pass (Some h)) && negb (is_some_pass (Some hv)) = false).
    { intros hv Hb. destruct Hp as [-> | E]; [reflexivity |].
      rewrite Hb in E; injection E as ->; apply andb_false_r. }
    split.
    + intro compare_hands'. unfold submit_move.
      destruct (get_next_player r) as [np |]; simpl; [| reflexivity].
      destruct (String.eqb u np); simpl; [| reflexivity].
      destruct (build sort_cards counts_order cs) as [[hv |] | |] eqn:Hb; cbn [exec_bind];
        try reflexivity.
      rewrite Hlm, (Hno hv eq_refl); reflexivity.
    + unfold submit_move.
      destruct (get_next_player r) as [np |]; simpl; [| discriminate].
      destruct (String.eqb u np); simpl; [| discriminate].
      destruct (build sort_cards counts_order cs) as [[hv |] | |] eqn:Hb; cbn [exec_bind];
        try discriminate.
      rewrite Hlm, (Hno hv eq_refl); intro E; apply submit_accepted_err in E; discriminate.
Qed.

Lemma hand_not_high_enough_iff_witness :
  submit_move sort_by_key insertion_order singles_cmp 2 round_single5 "a"%string
    [pc Three Clubs] = Returns (Err HandNotHighEnough).
Proof.
  apply (proj1 (proj2 (proj2 (hand_not_high_enough_iff sort_by_key insertion_order singles_cmp 2
           round_single5 (Single (pc Five Clubs)) eq_refl)))
           "a"%string [pc Three Clubs] (Single (pc Three Clubs)));
    try reflexivity; discriminate.
Defined.

(** C7: an accepted move reverses both orders, index for index, exactly when
    reversals are enabled and the submitted cards form a four of a kind;
    otherwise both orders are returned unchanged. *)
Theorem reversal_on_four_of_a_kind sort_cards counts_order compare_hands
    (fuel : nat) (r : Round) (u : string) (cs : list PlayedCard) (r' : Round) :
  submit_move sort_cards counts_order compare_hands fuel r u cs = Returns (Ok r') ->
  (reversals_enabled (ruleset r) = true /\
   (exists t, build sort_cards counts_order cs = Returns (Some (FiveCardTrick t)) /\
              trick_type t = FourOfAKind) ->
   suit_order r' = rev (suit_order r) /\ rank_order r' = rev (rank_order r)) /\
  (~ (reversals_enabled (ruleset r) = true /\
      (exists t, build sort_cards counts_order cs = Returns (Some (FiveCardTrick t)) /\
                 trick_type t = FourOfAKind)) ->
   suit_order r' = suit_order r /\ rank_order r' = rank_order r).
Proof.
  intro H. apply submit_move_ok in H as [_ [hv [Hb H]]].
  apply submit_accepted_ok in H as (p & p' & lm & np & _ & _ & _ & ->); simpl.
  rewrite Hb. unfold get_updated_suit_and_rank_order.
  destruct (reversals_enabled (ruleset r)) eqn:Er.
  - destruct hv as [| | | | [tt tcs]]; simpl; [.. | destruct tt; simpl];
      split; intro H;
      try (destruct H as [_ [t [E Ht]]]; injection E as <-; simpl in Ht; discriminate);
      try (destruct H as [_ [t [E Ht]]]; discriminate);
      try (split; reflexivity);
      exfalso; apply H; split; [reflexivity | eexists; split; reflexivity].
  - split; intros H; [destruct H as [E _]; discriminate | split; reflexivity].
Qed.

Lemma reversal_on_four_of_a_kind_witness :
  exists r', submit_move sort_by_key insertion_order singles_cmp 2 round_four "a"%string
               four_threes = Returns (Ok r') /\
             suit_order r' = rev std_suits /\ rank_order r' = rev std_ranks.
Proof.
  destruct (submit_move sort_by_key insertion_order singles_cmp 2 round_four "a"%string
              four_threes) as [[r' | e] | msg |] eqn:E;
    try (vm_compute in E; discriminate).
  exists r'; split; [reflexivity |].
  apply (proj1 (reversal_on_four_of_a_kind sort_by_key insertion_order singles_cmp 2
                  round_four "a"%string four_threes r' E)).
  split; [reflexivity |]; eexists; split; reflexivity.
Defined.

(** C8: after an accepted move, the players are those of the round with the
    acting player's hand reduced by the played cards, and the next player is
    [None] exactly when at most one of them still holds cards (otherwise it
    is [Some] id). *)
Theorem next_player_none_iff_round_over sort_cards counts_order compare_hands
    (fuel : nat) (r : Round) (u : string) (cs : list PlayedCard) (r' : Round) :
  submit_move sort_cards counts_order compare_hands fuel r u cs = Returns (Ok r') ->
  (exists p p', get_player (players r) u = Some p /\ play_move p cs = Some p' /\
                players r' = get_updated_players (players r) p') /\
  (next_player r' = None <-> length (get_players_still_in (players r')) <= 1) /\
  (1 < length (get_players_still_in (players r')) -> exists x, next_player r' = Some x).
Proof.
  intro H. apply submit_move_ok in H as [_ [hv [_ H]]].
  apply submit_accepted_ok in H as (p & p' & lm & np & Hp & Hpm & _ & ->); simpl.
  split; [exists p, p'; auto |].
  destruct (1 <? length (get_players_still_in (get_updated_players (players r) p'))) eqn:E.
  - apply Nat.ltb_lt in E. split; [split; [discriminate | lia] | eauto].
  - apply Nat.ltb_ge in E. split; [split; [auto | reflexivity] | lia].
Qed.

Lemma next_player_none_iff_round_over_witness :
  exists r', submit_move sort_by_key insertion_order singles_cmp 2 round_four "a"%string
               four_threes = Returns (Ok r') /\
             next_player r' = None.
Proof.
  destruct (submit_move sort_by_key insertion_order singles_cmp 2 round_four "a"%string
              four_threes) as [[r' | e] | msg |] eqn:E;
    try (vm_compute in E; discriminate).
  exists r'; split; [reflexivity |].
  destruct (next_player_none_iff_round_over sort_by_key insertion_order singles_cmp 2
              round_four "a"%string four_threes r' E) as [[p [p' [_ [_ Hps]]]] [Hiff _]].
  apply Hiff.
  (* only "b" still holds cards *)
  vm_compute in E; injection E as <-; vm_compute; lia.
Defined.

(** C10: when [get_next_player] is [None], [submit_move] panics (the
    [expect("invalid_player")]) for every user id and every card list: it
    returns neither a [SubmitError] nor a round. *)
Theorem submit_panics_without_next_player sort_cards counts_order compare_hands
    (r : Round) :
  get_next_player r = None ->
  forall fuel u cs,
    submit_move sort_cards counts_order compare_hands fuel r u cs = Panics "invalid_player" /\
    (forall e, submit_move sort_cards counts_order compare_hands fuel r u cs <> Returns (Err e)) /\
    (forall r', submit_move sort_cards counts_order compare_hands fuel r u cs <> Returns (Ok r')).
Proof.
  intros Hn fuel u cs. unfold submit_move; rewrite Hn; simpl.
  split; [reflexivity | split; intros ? E; discriminate].
Qed.

Lemma submit_panics_without_next_player_witness :
  get_next_player round_over = None /\
  submit_move sort_by_key insertion_order singles_cmp 3 round_over "b"%string
    [pc Five Clubs] = Panics "invalid_player".
Proof.
  split; [reflexivity |].
  apply (submit_panics_without_next_player sort_by_key insertion_order singles_cmp
           round_over eq_refl 3 "b"%string [pc Five Clubs]).
Defined.

(** C6 (counterexample): the test [when_player_wins_next_player_starts].
    "a" passes on the pair of "b", who has no cards left: the rotation
    reaches "b", skips it, and stops at "c".  The submitted hand is a pass and
    the computed next player "c" differs from the last player "b", yet the
    last move becomes [Pass] instead of staying the pair. *)
Lemma pass_clears_table_when_skipping_last_player :
  last_move round_b_won = Some (Pair (pc Three Clubs) (pc Three Clubs)) /\
  exists r', submit_move sort_by_key insertion_order singles_cmp 3 round_b_won "a"%string []
               = Returns (Ok r') /\
             next_player r' = Some "c"%string /\ last_player r' = Some "b"%string /\
             last_move r' = Some Pass.
Proof.
  split; [reflexivity |].
  destruct (submit_move sort_by_key insertion_order singles_cmp 3 round_b_won "a"%string [])
    as [[r' | e] | msg |] eqn:E; try (vm_compute in E; discriminate).
  exists r'; split; [reflexivity |].
  vm_compute in E; injection E as <-; repeat split.
Qed.

(** C6 (amended): after an accepted move, [last_player] is the previous one
    when the hand is a pass and the acting player otherwise.  The rotation
    visits the players from the one after the acting player on, skipping
    those with an empty hand (before the move), up to the computed next
    player.  The new [last_move] is [Pass] when any of these visited players
    (the immediate next one or one skipped over) is the new [last_player]
    (the placeholder id "invalid_player" when there is none); otherwise it is
    the previous [last_move] when the hand is a pass, and the hand itself
    when it is not. *)
Theorem last_move_after_accepted sort_cards counts_order compare_hands
    (fuel : nat) (r : Round) (u : string) (cs : list PlayedCard) (r' : Round) :
  submit_move sort_cards counts_order compare_hands fuel r u cs = Returns (Ok r') ->
  exists hv x0 path,
    build sort_cards counts_order cs = Returns (Some hv) /\
    last_player r' = (if is_some_pass (Some hv) then last_player r else Some u) /\
    get_next_player_in_rotation (players r) u = Returns x0 /\
    skip_path (players r) x0 path /\
    (forall p, next_player r' = Some p -> p = last path x0) /\
    last_move r' =
      if existsb (fun y => String.eqb y (last_id_of (last_player r'))) path then Some Pass
      else if is_some_pass (Some hv) then last_move r else Some hv.
Proof.
  intro H. apply submit_move_ok in H as [_ [hv [Hb H]]].
  apply submit_accepted_ok in H as (p & p' & lm & np & _ & _ & Hlm & ->).
  apply last_move_and_new_player_path in Hlm as (x0 & path & Hx0 & Hp & Hl & Hlm).
  exists hv, x0, path; simpl; repeat split; auto.
  intros q Hq. destruct (1 <? _); [injection Hq as <-; auto | discriminate].
Qed.

Lemma last_move_after_accepted_witness :
  exists r', submit_move sort_by_key insertion_order singles_cmp 3 round_b_won "a"%string []
               = Returns (Ok r') /\
             last_move r' = Some Pass.
Proof.
  destruct (submit_move sort_by_key insertion_order singles_cmp 3 round_b_won "a"%string [])
    as [[r' | e] | msg |] eqn:E; try (vm_compute in E; discriminate).
  exists r'; split; [reflexivity |].
  destruct (last_move_after_accepted sort_by_key insertion_order singles_cmp 3 round_b_won
              "a"%string [] r' E) as (hv & x0 & path & Hb & Hlp & Hx0 & Hp & _ & Hlm).
  vm_compute in Hb; injection Hb as <-.
  vm_compute in Hx0; injection Hx0 as <-.
  rewrite Hlm, Hlp; clear Hlm Hlp.
  (* the rotation from "b" (no cards) goes on to "c" *)
  inversion Hp as [x p Ep Hne | x p y rest Ep He Ey Hrest]; subst;
    vm_compute in Ep; injection Ep as <-; [contradiction Hne; reflexivity |].
  reflexivity.
Defined.

(** C9: for players with distinct ids, after an accepted move with
    [next_player = Some p], [p] sits [k] seats after the acting player (seat
    [i]), with [1 <= k] and [k] less than the number of seats, wrapping from
    the last seat to the first; its hand is not empty after the move, and
    every player seated strictly between them has an empty hand after the
    move.  No player with an empty hand is the next player. *)
Theorem next_player_first_nonempty sort_cards counts_order compare_hands
    (fuel : nat) (r : Round) (u : string) (cs : list PlayedCard) (r' : Round)
    (p : string) :
  NoDup (map get_id (players r)) ->
  submit_move sort_cards counts_order compare_hands fuel r u cs = Returns (Ok r') ->
  next_player r' = Some p ->
  exists i k q,
    nth_error (map get_id (players r')) i = Some u /\
    1 <= k < length (players r') /\
    nth_error (players r') ((i + k) mod length (players r')) = Some q /\
    get_id q = p /\ get_hand q <> [] /\
    (forall m q', 1 <= m < k ->
       nth_error (players r') ((i + m) mod length (players r')) = Some q' ->
       get_hand q' = []) /\
    (forall q', In q' (players r') -> get_id q' = p -> get_hand q' <> []).
Proof.
  intros Hnd H Hnp.
  apply submit_move_ok in H as [_ [hv [_ H]]].
  apply submit_accepted_ok in H as (pu & pu' & lm & np & Epu & Epm & Elm & ->).
  simpl in Hnp |- *.
  apply last_move_and_new_player_path in Elm as (x0 & path & Hx0 & Hpath & Hlast & _).
  destruct (get_player_nth _ _ _ Epu) as [i [Hi Hiu]].
  pose proof (play_move_id _ _ _ Epm) as Hid'.
  set (ps := players r) in *.
  set (ps' := get_updated_players ps pu') in *.
  assert (Hlen : length ps' = length ps)
    by (unfold ps', get_updated_players; apply length_map).
  assert (Hids : map get_id ps' = map get_id ps) by apply get_updated_players_ids.
  rewrite Hlen.
  set (n := length ps) in *.
  assert (Hlt : i < n) by (apply nth_error_Some; congruence).
  destruct (rotation_nodup ps i pu Hnd Hi) as [q1 [Hq1 Hrot]].
  rewrite Hiu, Hx0 in Hrot. injection Hrot as Hq1id.
  destruct (skip_path_positions ps x0 path (S i mod n) q1 Hnd Hpath Hq1 (eq_sym Hq1id))
    as [k [q [Hq [Hqid [Hqne Hm]]]]].
  change (length ps) with n in Hq, Hm.
  rewrite mod_shift in Hq.
  assert (Hm' : forall m, m < k ->
            exists q', nth_error ps ((i + S m) mod n) = Some q' /\ get_hand q' = [])
    by (intros m Hmk; rewrite <- mod_shift; apply Hm; exact Hmk).
  clear Hm.
  destruct (1 <? length (get_players_still_in ps')) eqn:Ecount; [| discriminate].
  injection Hnp as Hnp.
  assert (Hk : k < n - 1).
  { destruct (Nat.lt_ge_cases k (n - 1)) as [Hk | Hk]; [exact Hk | exfalso].
    destruct (Nat.lt_ge_cases k n) as [Hkn | Hkn].
    - (* the rotation came back to the acting player: nobody else holds cards *)
      assert (Hle : length (get_players_still_in ps') <= 1).
      { apply (still_in_at_most_one ps' i). intros t q' Ht Hq'.
        unfold ps' in Hq'. rewrite (get_updated_players_other ps i t pu pu' Hnd Hi Hid' Ht) in Hq'.
        assert (Htn : t < n) by (apply nth_error_Some; congruence).
        destruct (seat_cover n i t Hlt Htn Ht) as [m [Hmn Hmt]].
        destruct (Hm' m ltac:(lia)) as [q'' [Hq'' He]]. rewrite Hmt in Hq''. congruence. }
      apply Nat.ltb_lt in Ecount; lia.
    - (* a seat is visited twice, empty the first time and not the second *)
      destruct (Hm' (k - n) ltac:(lia)) as [q'' [Hq'' He]].
      assert (Hmod : (i + S k) mod n = (i + S (k - n)) mod n).
      { replace (i + S k) with (i + S (k - n) + 1 * n) by lia. apply Nat.Div0.mod_add. }
      rewrite Hmod in Hq. congruence. }
  assert (Hq' : nth_error ps' ((i + S k) mod n) = Some q).
  { unfold ps'. rewrite (get_updated_players_other ps i _ pu pu' Hnd Hi Hid'); [exact Hq |].
    apply seat_shift_ne; lia. }
  exists i, (S k), q. repeat split.
  - rewrite Hids, nth_error_map, Hi; simpl; congruence.
  - lia.
  - lia.
  - exact Hq'.
  - congruence.
  - exact Hqne.
  - intros [| m] q' Hmk Hq''; [lia |].
    unfold ps' in Hq''.
    rewrite (get_updated_players_other ps i _ pu pu' Hnd Hi Hid') in Hq''
      by (apply seat_shift_ne; lia).
    destruct (Hm' m ltac:(lia)) as [q3 [Hq3 He]]. congruence.
  - intros q' Hin Hqp. destruct (In_nth_error _ _ Hin) as [t Ht].
    assert (Hnd' : NoDup (map get_id ps')) by (rewrite Hids; exact Hnd).
    assert (t = (i + S k) mod n) as -> by (apply (nodup_nth_id ps' _ _ q' q Hnd' Ht Hq'); congruence).
    rewrite Hq' in Ht. injection Ht as <-. exact Hqne.
Qed.

Lemma next_player_first_nonempty_witness :
  exists r' i k q,
    submit_move sort_by_key insertion_order singles_cmp 3 round_b_won "a"%string []
      = Returns (Ok r') /\
    next_player r' = Some "c"%string /\
    nth_error (map get_id (players r')) i = Some "a"%string /\
    nth_error (players r') ((i + k) mod length (players r')) = Some q /\
    get_id q = "c"%string /\ get_hand q <> [].
Proof.
  destruct (submit_move sort_by_key insertion_order singles_cmp 3 round_b_won "a"%string [])
    as [[r' | e] | msg |] eqn:E; try (vm_compute in E; discriminate).
  assert (Hn : next_player r' = Some "c"%string)
    by (vm_compute in E; injection E as <-; reflexivity).
  assert (Hnd : NoDup (map get_id (players round_b_won)))
    by (vm_compute; repeat constructor; simpl; intuition discriminate).
  destruct (next_player_first_nonempty sort_by_key insertion_order singles_cmp 3 round_b_won
              "a"%string [] r' "c"%string Hnd E Hn)
    as (i & k & q & Hi & _ & Hq & Hid & Hne & _ & _).
  exists r', i, k, q. repeat split; auto.
Defined.

(* ========================================================================= *)
(** * Further properties of the code *)

(** ** Counting ranks, straights and the cards of a hand *)

(** X1: [Hand::get_counts] has one entry per rank of the cards (no rank
    twice, no other rank), each with the number of cards of that rank, and
    the counts add up to the number of cards. *)
Theorem get_counts_spec (cs : list PlayedCard) :
  NoDup (map fst (get_counts cs)) /\
  (forall x, In x (map fst (get_counts cs)) <-> In x (map get_rank cs)) /\
  (forall x n, In (x, n) (get_counts cs) -> n = count_occ Rank_eq_dec (map get_rank cs) x) /\
  fold_right plus 0 (map snd (get_counts cs)) = length cs.
Proof.
  split; [apply get_counts_nodup |]. split; [apply get_counts_keys |]. split.
  - intros x n Hin. rewrite <- get_counts_lookup. symmetry.
    apply lookup_In; [apply get_counts_nodup | exact Hin].
  - apply get_counts_sum.
Qed.

Lemma straight_step (prev c : PlayedCard) :
  match previous_rank c with Some r => Rank_eqb (get_rank prev) r | None => false end = true
  <-> S (rank_index (get_rank prev)) = rank_index (get_rank c).
Proof.
  unfold previous_rank. destruct (get_rank prev), (get_rank c); vm_compute;
    split; intro H; first [reflexivity | discriminate | lia].
Qed.

Lemma is_straight_from_iff (prev : PlayedCard) (cs : list PlayedCard) :
  is_straight_from prev cs = true <->
  forall i c c', nth_error (prev :: cs) i = Some c -> nth_error (prev :: cs) (S i) = Some c' ->
    rank_index (get_rank c') = S (rank_index (get_rank c)).
Proof.
  revert prev; induction cs as [| c t IH]; intro prev; simpl.
  - split; [intros _ i c c' _ H; destruct i; discriminate | reflexivity].
  - rewrite andb_true_iff, straight_step, IH. split.
    + intros [Hs Ht] [| i] c0 c' H0 H1; simpl in H0, H1.
      * injection H0 as <-; injection H1 as <-; symmetry; exact Hs.
      * exact (Ht i c0 c' H0 H1).
    + intro H; split.
      * symmetry; exact (H 0 prev c eq_refl eq_refl).
      * intros i c0 c' H0 H1; exact (H (S i) c0 c' H0 H1).
Qed.

(** X2: [Hand::is_straight] holds exactly when each card's rank is the one
    right after the previous card's rank in the fixed chain Three, Four, ...,
    Ace, Two: a straight never wraps around from Two to Three. *)
Theorem is_straight_consecutive (cs : list PlayedCard) :
  is_straight cs = true <->
  forall i c c', nth_error cs i = Some c -> nth_error cs (S i) = Some c' ->
    rank_index (get_rank c') = S (rank_index (get_rank c)).
Proof.
  destruct cs as [| c0 t]; simpl.
  - split; [intros _ i c c' H; destruct i; discriminate | reflexivity].
  - apply is_straight_from_iff.
Qed.

Lemma check_valid_fct_cards (sort_cards : list PlayedCard -> list PlayedCard)
    (counts_order : list (Rank * nat) -> list (Rank * nat)) (c : list PlayedCard) (h : Hand) :
  check_valid_fct sort_cards counts_order c = Returns (Some h) -> hand_cards h = sort_cards c.
Proof.
  unfold check_valid_fct, sort_cards_exec, build_fct. intro H.
  destruct (same_reversal c); cbn [exec_bind] in H; [| discriminate].
  repeat match type of H with context [match ?x with _ => _ end] => destruct x end;
    try discriminate; injection H as <-; reflexivity.
Qed.

(** X3: [Hand::build] keeps the submitted cards: a hand of 0 to 3 cards holds
    them in the submitted order, a five-card trick holds them as sorted; so
    when the sort only reorders, the hand holds exactly the submitted cards. *)
Theorem build_keeps_cards (sort_cards : list PlayedCard -> list PlayedCard)
    (counts_order : list (Rank * nat) -> list (Rank * nat)) (cs : list PlayedCard) (h : Hand) :
  build sort_cards counts_order cs = Returns (Some h) ->
  hand_cards h = (if length cs =? 5 then sort_cards cs else cs) /\
  ((forall l, Permutation (sort_cards l) l) -> Permutation (hand_cards h) cs).
Proof.
  intro H.
  assert (E : hand_cards h = (if length cs =? 5 then sort_cards cs else cs)).
  { destruct cs as [| c0 [| c1 [| c2 [| c3 [| c4 [| c5 t]]]]]]; simpl in H |- *;
      try discriminate.
    - injection H as <-; reflexivity.
    - injection H as <-; reflexivity.
    - unfold check_valid_pair in H; destruct (_ =? 1); [injection H as <-; reflexivity | discriminate].
    - unfold check_valid_prial in H; destruct (_ =? 1); [injection H as <-; reflexivity | discriminate].
    - exact (check_valid_fct_cards _ _ _ _ H). }
  split; [exact E |]. intro Hs. rewrite E. destruct (length cs =? 5); [apply Hs | reflexivity].
Qed.

Lemma build_keeps_cards_witness :
  hand_cards (FiveCardTrick (mkTrick Straight (sort_by_key straight_53647))) =
    [pc Three Clubs; pc Four Clubs; pc Five Clubs; pc Six Hearts; pc Seven Hearts] /\
  Permutation [pc Three Clubs; pc Four Clubs; pc Five Clubs; pc Six Hearts; pc Seven Hearts]
    straight_53647.
Proof.
  destruct (build_keeps_cards sort_by_key insertion_order straight_53647
              (FiveCardTrick (mkTrick Straight (sort_by_key straight_53647))) eq_refl)
    as [E P].
  split; [exact E |]. exact (P sort_by_key_perm).
Defined.

(** X11: five cards all of one rank are a five of a kind (when the sort only
    reorders), whatever the map's iteration order, as long as they share one
    reversal status (otherwise the sort panics); the trick holds the sorted
    cards. *)
Theorem build_five_of_a_kind (sort_cards : list PlayedCard -> list PlayedCard)
    (counts_order : list (Rank * nat) -> list (Rank * nat)) (cs : list PlayedCard) (x : Rank) :
  (forall l, Permutation (sort_cards l) l) ->
  length cs = 5 -> (forall c, In c cs -> get_rank c = x) ->
  ((exists c c', In c cs /\ In c' cs /\ reversed (card c) <> reversed (card c')) ->
     build sort_cards counts_order cs =
       Panics "Cannot compare cards with different reversal status"%string) /\
  ((forall c c', In c cs -> In c' cs -> reversed (card c) = reversed (card c')) ->
     build sort_cards counts_order cs =
       Returns (Some (FiveCardTrick (mkTrick FiveOfAKind (sort_cards cs))))).
Proof.
  intros Hs Hl Hx.
  split; [exact (build_five_mixed sort_cards counts_order cs Hl) |].
  intro Hsame. apply same_reversal_iff in Hsame.
  rewrite build_five by exact Hl. unfold check_valid_fct, sort_cards_exec.
  rewrite Hsame; cbn [exec_bind].
  assert (Hkeys : Permutation (map fst (get_counts cs)) [x]).
  { apply NoDup_Permutation; [apply get_counts_nodup | constructor; [intros [] | constructor] |].
    intro y; rewrite get_counts_keys, in_map_iff; simpl. split.
    - intros [c [<- Hc]]; left; symmetry; apply Hx; exact Hc.
    - intros [<- | []]. destruct cs as [| c t]; [discriminate |].
      exists c; split; [apply Hx |]; left; reflexivity. }
  apply Permutation_length in Hkeys. rewrite length_map in Hkeys.
  rewrite (get_counts_length_perm _ _ (Hs cs)), Hkeys. reflexivity.
Qed.

Lemma build_five_of_a_kind_witness :
  build sort_by_key reverse_order [pc Nine Spades; pc Nine Clubs; pc Nine Hearts; pc Nine Clubs; pc Nine Diamonds] =
    Returns (Some (FiveCardTrick (mkTrick FiveOfAKind
      [pc Nine Clubs; pc Nine Clubs; pc Nine Hearts; pc Nine Diamonds; pc Nine Spades]))).
Proof.
  rewrite (proj2 (build_five_of_a_kind sort_by_key reverse_order
             [pc Nine Spades; pc Nine Clubs; pc Nine Hearts; pc Nine Clubs; pc Nine Diamonds]
             Nine sort_by_key_perm eq_refl
             ltac:(intros c H; repeat (destruct H as [<- | H]; [reflexivity |]); destruct H))).
  - reflexivity.
  - apply same_reversal_iff; reflexivity.
Defined.

(** ** Comparing cards *)

Lemma forallb_false_ex {A} (p : A -> bool) (l : list A) :
  forallb p l = false -> exists x, In x l /\ p x = false.
Proof.
  induction l as [| a t IH]; simpl; [discriminate |].
  destruct (p a) eqn:E; simpl.
  - intro H; destruct (IH H) as [x [Hx Hp]]; eauto.
  - intros _; eauto.
Qed.

(** Two elements of a list that differ under [f] give two neighbours that
    differ under [f]. *)
Lemma neighbours_differ (f : PlayedCard -> bool) (l : list PlayedCard) :
  forall x y, In x l -> In y l -> f x <> f y ->
  exists i a b, nth_error l i = Some a /\ nth_error l (S i) = Some b /\ f a <> f b.
Proof.
  induction l as [| a t IH]; intros x y Hx Hy Hne; [destruct Hx |].
  destruct t as [| b t'].
  - destruct Hx as [<- | []]; destruct Hy as [<- | []]; contradiction.
  - destruct (Bool.bool_dec (f a) (f b)) as [E | E].
    + assert (Hsh : exists x' y', In x' (b :: t') /\ In y' (b :: t') /\ f x' <> f y').
      { destruct Hx as [<- | Hx]; destruct Hy as [<- | Hy].
        - contradiction.
        - exists b, y; rewrite <- E; repeat split; [left; reflexivity | exact Hy | exact Hne].
        - exists x, b; rewrite <- E; repeat split; [exact Hx | left; reflexivity | exact Hne].
        - exists x, y; auto. }
      destruct Hsh as (x' & y' & Hx' & Hy' & Hne').
      destruct (IH x' y' Hx' Hy' Hne') as (i & a0 & b0 & H1 & H2 & H3).
      exists (S i), a0, b0; auto.
    + exists 0, a, b; auto.
Qed.

(** X4: whatever order the sort of [Hand::sort_cards] leaves five (or any
    number of) cards in, when their reversal statuses are mixed two
    neighbours of that order make [Card::partial_cmp] panic, so a sort that
    returns must have hit the panic; when all cards share one status, every
    comparison of two of them returns. *)
Theorem sort_order_neighbours rank_cmp suit_cmp (cs l : list PlayedCard) :
  Permutation l cs ->
  (same_reversal cs = false ->
   exists i a b, nth_error l i = Some a /\ nth_error l (S i) = Some b /\
     card_partial_cmp rank_cmp suit_cmp (card a) (card b) =
       Panics "Cannot compare cards with different reversal status"%string) /\
  (same_reversal cs = true ->
   forall a b, In a l -> In b l ->
     exists o, card_partial_cmp rank_cmp suit_cmp (card a) (card b) = Returns o).
Proof.
  intro Hp. split.
  - intro Hm.
    assert (Hx : exists x y, In x l /\ In y l /\ reversed (card x) <> reversed (card y)).
    { unfold same_reversal in Hm; destruct cs as [| c0 t]; [discriminate |].
      destruct (forallb_false_ex _ _ Hm) as [x [Hx Ex]].
      apply Bool.eqb_false_iff in Ex.
      exists x, c0; repeat split; [| | exact Ex];
        apply (Permutation_in _ (Permutation_sym Hp)); [exact Hx | left; reflexivity]. }
    destruct Hx as (x & y & Hx & Hy & Hne).
    destruct (neighbours_differ (fun c => reversed (card c)) l x y Hx Hy Hne)
      as (i & a & b & Ha & Hb & Hab).
    exists i, a, b; split; [exact Ha | split; [exact Hb |]].
    unfold card_partial_cmp.
    destruct (reversed (card a)), (reversed (card b)); simpl; congruence.
  - intros Hs a b Ha Hb.
    pose proof (proj1 (same_reversal_iff cs) Hs a b
                  (Permutation_in _ Hp Ha) (Permutation_in _ Hp Hb)) as E.
    unfold card_partial_cmp. rewrite E, eqb_reflx; simpl.
    destruct (reversed (card b)); destruct (rank_cmp _ _) as [[| |] |]; eauto.
Qed.

Lemma sort_order_neighbours_witness :
  exists i a b, nth_error (sort_by_key full_33344_mixed) i = Some a /\
    nth_error (sort_by_key full_33344_mixed) (S i) = Some b /\
    card_partial_cmp rank_cmp_decl suit_cmp_decl (card a) (card b) =
      Panics "Cannot compare cards with different reversal status"%string.
Proof.
  exact (proj1 (sort_order_neighbours rank_cmp_decl suit_cmp_decl full_33344_mixed
                  (sort_by_key full_33344_mixed) (sort_by_key_perm full_33344_mixed))
               eq_refl).
Defined.

(** X5: for antisymmetric rank and suit comparisons, two reversed cards
    compare the opposite way to the same two cards unreversed. *)
Theorem card_partial_cmp_reversed rank_cmp suit_cmp (a b : Card) :
  (forall x y, rank_cmp x y = option_map CompOpp (rank_cmp y x)) ->
  (forall x y, suit_cmp x y = option_map CompOpp (suit_cmp y x)) ->
  reversed a = true -> reversed b = true ->
  card_partial_cmp rank_cmp suit_cmp a b =
    match card_partial_cmp rank_cmp suit_cmp (mkCard (rank a) (suit a) false)
                                             (mkCard (rank b) (suit b) false) with
    | Returns o => Returns (option_map CompOpp o)
    | e => e
    end.
Proof.
  intros Hr Hs Ha Hb. unfold card_partial_cmp; rewrite Ha, Hb; simpl.
  rewrite (Hr (rank b) (rank a)).
  destruct (rank_cmp (rank a) (rank b)) as [[| |] |]; simpl; try reflexivity.
  rewrite (Hs (suit b) (suit a)). reflexivity.
Qed.

Lemma card_partial_cmp_reversed_witness :
  card_partial_cmp rank_cmp_decl suit_cmp_decl (mkCard Three Clubs true) (mkCard Four Clubs true)
    = Returns (Some Gt).
Proof.
  rewrite (card_partial_cmp_reversed rank_cmp_decl suit_cmp_decl
             (mkCard Three Clubs true) (mkCard Four Clubs true));
    try reflexivity; intros x y; unfold rank_cmp_decl, suit_cmp_decl; simpl;
    rewrite Nat.compare_antisym; reflexivity.
Defined.

(** ** The rotation and the skipping loop *)

Lemma rotation_index_cases (ps : list Player) (x : string) (k idx : nat) :
  rotation_index ps x k idx = idx \/
  exists j p, nth_error ps j = Some p /\ get_id p = x /\ rotation_index ps x k idx = k + S j.
Proof.
  revert k idx; induction ps as [| a t IH]; intros k idx; simpl; [left; reflexivity |].
  destruct (IH (S k) (if String.eqb (get_id a) x then S k else idx))
    as [E | (j & p & Hj & Hid & E)]; rewrite E.
  - destruct (String.eqb (get_id a) x) eqn:Ea; [right | left; reflexivity].
    apply String.eqb_eq in Ea. exists 0, a. repeat split; auto; lia.
  - right. exists (S j), p. repeat split; auto; lia.
Qed.

(** X6: on a non-empty player list, [get_next_player_in_rotation] never
    panics and returns the id of a seated player; for an id that is not
    seated it returns the id of the first seat. *)
Theorem get_next_player_in_rotation_seated (p0 : Player) (t : list Player) (x : string) :
  exists y, get_next_player_in_rotation (p0 :: t) x = Returns y /\
    In y (map get_id (p0 :: t)) /\
    (~ In x (map get_id (p0 :: t)) -> y = get_id p0).
Proof.
  unfold get_next_player_in_rotation.
  destruct (String.eqb (get_id (last (p0 :: t) p0)) x) eqn:E.
  - exists (get_id p0). split; [reflexivity | split; [left; reflexivity | intros _; reflexivity]].
  - destruct (rotation_index_cases (p0 :: t) x 0 0) as [R | (j & p & Hj & Hid & R)];
      rewrite R.
    + exists (get_id p0). split; [reflexivity | split; [left; reflexivity | intros _; reflexivity]].
    + simpl plus.
      destruct (nth_error (p0 :: t) (S j)) as [q |] eqn:Eq.
      * exists (get_id q). split; [reflexivity | split].
        -- apply in_map; eapply nth_error_In; eauto.
        -- intro Hn; exfalso; apply Hn. rewrite <- Hid; apply in_map; eapply nth_error_In; eauto.
      * exfalso. apply nth_error_None in Eq.
        assert (Hlt : j < length (p0 :: t)) by (apply nth_error_Some; congruence).
        assert (j = length t) as -> by (simpl in Eq, Hlt; lia).
        rewrite (nth_error_last p0 p0 t) in Hj. injection Hj as Hp.
        apply (proj1 (String.eqb_neq _ _) E). rewrite <- Hid. exact (f_equal get_id Hp).
Qed.

Lemma get_player_in (ps : list Player) (x : string) :
  In x (map get_id ps) -> exists p, get_player ps x = Some p /\ In p ps.
Proof.
  intro H. unfold get_player.
  destruct (find (fun p => String.eqb (get_id p) x) ps) as [p |] eqn:E.
  - exists p; split; [reflexivity | exact (proj1 (find_some _ _ E))].
  - exfalso. apply in_map_iff in H as [p [Hp Hin]].
    pose proof (find_none _ _ E p Hin) as F. cbv beta in F.
    rewrite Hp, String.eqb_refl in F. discriminate.
Qed.

Lemma rotation_seated (ps : list Player) (x : string) :
  ps <> [] -> exists y, get_next_player_in_rotation ps x = Returns y /\ In y (map get_id ps).
Proof.
  destruct ps as [| p0 t]; [contradiction |]. intros _.
  destruct (get_next_player_in_rotation_seated p0 t x) as (y & E & Hin & _). eauto.
Qed.

Lemma skip_empty_diverges (fuel : nat) (r : Round) (lid x : string) (nlm : option Hand) :
  (forall q, In q (players r) -> get_hand q = []) -> In x (map get_id (players r)) ->
  skip_empty fuel r lid x nlm = OutOfFuel.
Proof.
  intro Hall. revert x nlm; induction fuel as [| f IH]; intros x nlm Hx;
    destruct (get_player_in _ _ Hx) as [p [Ep Hin]]; simpl; rewrite Ep, (Hall p Hin); simpl;
    [reflexivity |].
  assert (Hne : players r <> []) by (destruct (players r); [contradiction | discriminate]).
  destruct (rotation_seated (players r) x Hne) as [y [Ey Hy]]. rewrite Ey; simpl.
  apply IH; exact Hy.
Qed.

(** X7: when no player holds a card, a pass by the seated current player
    on a started round never returns: the skipping loop of
    [get_last_move_and_new_player] runs forever, whatever the fuel. *)
Theorem submit_pass_all_empty_diverges sort_cards counts_order compare_hands
    (fuel : nat) (r : Round) (u : string) (p : Player) (h : Hand) :
  get_next_player r = Some u -> last_move r = Some h -> get_player (players r) u = Some p ->
  (forall q, In q (players r) -> get_hand q = []) ->
  submit_move sort_cards counts_order compare_hands fuel r u [] = OutOfFuel.
Proof.
  intros Hn Hl Hp Hall. unfold submit_move. rewrite Hn; simpl. rewrite String.eqb_refl; simpl.
  rewrite Hl.
  unfold submit_accepted. rewrite Hp; simpl.
  unfold get_last_move_and_new_player.
  assert (Hne : players r <> [])
    by (apply find_some in Hp as [Hin _]; destruct (players r); [contradiction | discriminate]).
  destruct (rotation_seated (players r) u Hne) as [y [Ey Hy]]. rewrite Ey; simpl.
  rewrite skip_empty_diverges by assumption. rewrite andb_false_r. reflexivity.
Qed.

Lemma submit_pass_all_empty_diverges_witness :
  submit_move sort_by_key insertion_order singles_cmp 1000 round_all_empty "a"%string []
    = OutOfFuel.
Proof.
  apply (submit_pass_all_empty_diverges sort_by_key insertion_order singles_cmp 1000
           round_all_empty "a"%string (mkPlayer "a"%string []) Pass);
    try reflexivity.
  intros q [<- | [<- | []]]; reflexivity.
Defined.

Lemma get_player_seated (ps : list Player) (i : nat) (p : Player) :
  NoDup (map get_id ps) -> nth_error ps i = Some p -> get_player ps (get_id p) = Some p.
Proof.
  intros Hnd Hi.
  destruct (get_player_in ps (get_id p)) as [p' [E _]];
    [apply in_map; eapply nth_error_In; eauto |].
  rewrite E. f_equal. exact (get_player_unique ps _ p' p i Hnd E Hi eq_refl).
Qed.

(** The skipping loop returns when a seat [d <= fuel] seats further on holds
    cards. *)
Lemma skip_empty_returns (r : Round) (lid : string) (d : nat) :
  NoDup (map get_id (players r)) ->
  forall fuel j p nlm,
    nth_error (players r) j = Some p ->
    (exists q, nth_error (players r) ((j + d) mod length (players r)) = Some q /\
               get_hand q <> []) ->
    d <= fuel ->
    exists res, skip_empty fuel r lid (get_id p) nlm = Returns res.
Proof.
  intro Hnd. induction d as [| d IH]; intros fuel j p nlm Hj [q [Hq Hne]] Hd.
  - assert (Hlt : j < length (players r)) by (apply nth_error_Some; congruence).
    rewrite Nat.add_0_r, Nat.mod_small in Hq by exact Hlt.
    rewrite Hj in Hq; injection Hq as <-.
    destruct fuel; simpl; rewrite (get_player_seated _ j p Hnd Hj);
      destruct (get_hand p) eqn:Eh; try contradiction; simpl; eauto.
  - destruct fuel as [| f]; [lia |]. simpl. rewrite (get_player_seated _ j p Hnd Hj).
    destruct (is_empty (get_hand p)); [| eauto].
    destruct (rotation_nodup _ j p Hnd Hj) as [q1 [Hq1 Hrot]]. rewrite Hrot; simpl.
    apply (IH f (S j mod length (players r)) q1); [exact Hq1 | | lia].
    exists q; rewrite mod_shift; split; assumption.
Qed.

Lemma seat_dist (n j t : nat) : j < n -> t < n -> exists d, d < n /\ (j + d) mod n = t.
Proof.
  intros Hj Ht. destruct (Nat.le_gt_cases j t).
  - exists (t - j); split; [lia |]. rewrite Nat.mod_small by lia; lia.
  - exists (n - j + t); split; [lia |]. rewrite mod_wrap by lia; lia.
Qed.

(** X8: once the round has started (a last move is recorded), a pass by the
    current player is accepted, provided the ids are distinct, the player is
    seated, some player holds cards, and the skipping loop may run once per
    seat. *)
Theorem pass_accepted sort_cards counts_order compare_hands
    (fuel : nat) (r : Round) (u : string) (p : Player) (h : Hand) :
  NoDup (map get_id (players r)) ->
  get_next_player r = Some u -> last_move r = Some h -> get_player (players r) u = Some p ->
  (exists q, In q (players r) /\ get_hand q <> []) ->
  length (players r) <= fuel ->
  exists r', submit_move sort_cards counts_order compare_hands fuel r u [] = Returns (Ok r').
Proof.
  intros Hnd Hn Hl Hp [q [Hqin Hqne]] Hfuel. unfold submit_move. rewrite Hn; simpl.
  rewrite String.eqb_refl; simpl. rewrite Hl, andb_false_r.
  unfold submit_accepted. rewrite Hp; simpl.
  unfold get_last_move_and_new_player.
  destruct (get_player_nth _ _ _ Hp) as [i [Hi Hiu]].
  destruct (rotation_nodup _ i p Hnd Hi) as [q1 [Hq1 Hrot]].
  rewrite Hiu in Hrot; rewrite Hrot; simpl.
  destruct (In_nth_error _ _ Hqin) as [t Ht].
  set (n := length (players r)) in *.
  assert (Hjn : S i mod n < n) by (apply Nat.mod_upper_bound; destruct (players r); simpl in *; [discriminate | lia]).
  assert (Htn : t < n) by (apply nth_error_Some; congruence).
  destruct (seat_dist n _ t Hjn Htn) as [d [Hd Hdt]].
  edestruct (skip_empty_returns r (last_id_of (last_player r)) d Hnd fuel (S i mod n) q1)
    as [[lm np] E]; [exact Hq1 | exists q; fold n; rewrite Hdt; split; assumption | lia |].
  rewrite E; simpl. eauto.
Qed.

Lemma pass_accepted_witness :
  exists r', submit_move sort_by_key insertion_order singles_cmp 2 round_single5 "a"%string []
               = Returns (Ok r').
Proof.
  apply (pass_accepted sort_by_key insertion_order singles_cmp 2 round_single5 "a"%string
           (mkPlayer "a"%string [held Three Clubs]) (Single (pc Five Clubs)));
    try reflexivity.
  - vm_compute; repeat constructor; simpl; intuition discriminate.
  - exists (mkPlayer "b"%string [held Four Clubs; held Five Clubs]); split;
      [right; left; reflexivity | discriminate].
Defined.

(** ** What an accepted move keeps *)

(** X9: an accepted move keeps the seats: the same ids in the same order,
    the same ruleset, and every player other than the acting one unchanged,
    hand included. *)
Theorem submit_keeps_seats sort_cards counts_order compare_hands
    (fuel : nat) (r : Round) (u : string) (cs : list PlayedCard) (r' : Round) :
  submit_move sort_cards counts_order compare_hands fuel r u cs = Returns (Ok r') ->
  map get_id (players r') = map get_id (players r) /\ ruleset r' = ruleset r /\
  (forall j q, nth_error (players r) j = Some q -> get_id q <> u ->
               nth_error (players r') j = Some q).
Proof.
  intro H. apply submit_move_ok in H as [_ [hv [_ H]]].
  apply submit_accepted_ok in H as (p & p' & lm & np & Ep & Epm & _ & ->); simpl.
  split; [apply get_updated_players_ids | split; [reflexivity |]].
  intros j q Hq Hqu. unfold get_updated_players; rewrite nth_error_map, Hq; simpl.
  destruct (String.eqb (get_id q) (get_id p')) eqn:E; [| reflexivity].
  exfalso; apply Hqu. apply String.eqb_eq in E. rewrite E, (play_move_id _ _ _ Epm).
  destruct (get_player_nth _ _ _ Ep) as [i [_ Hid]]; exact Hid.
Qed.

Lemma submit_keeps_seats_witness :
  exists r', submit_move sort_by_key insertion_order singles_cmp 2 round_single5 "a"%string []
               = Returns (Ok r') /\
             nth_error (players r') 1 = Some (mkPlayer "b"%string [held Four Clubs; held Five Clubs]).
Proof.
  destruct (submit_move sort_by_key insertion_order singles_cmp 2 round_single5 "a"%string [])
    as [[r' | e] | msg |] eqn:E; try (vm_compute in E; discriminate).
  exists r'; split; [reflexivity |].
  destruct (submit_keeps_seats sort_by_key insertion_order singles_cmp 2 round_single5
              "a"%string [] r' E) as (_ & _ & Hs).
  apply Hs; [reflexivity | discriminate].
Defined.

Lemma submit_orders sort_cards counts_order compare_hands
    (fuel : nat) (r : Round) (u : string) (cs : list PlayedCard) (r' : Round) (hv : Hand) :
  submit_move sort_cards counts_order compare_hands fuel r u cs = Returns (Ok r') ->
  build sort_cards counts_order cs = Returns (Some hv) ->
  ruleset r' = ruleset r /\
  (suit_order r', rank_order r') = get_updated_suit_and_rank_order r (Some hv).
Proof.
  intros H Hb. apply submit_move_ok in H as [_ [hv' [Hb' H]]].
  rewrite Hb in Hb'; injection Hb' as <-.
  apply submit_accepted_ok in H as (p & p' & lm & np & _ & _ & _ & ->); simpl.
  split; [reflexivity |]. destruct (get_updated_suit_and_rank_order r (Some hv)); reflexivity.
Qed.

Lemma reverse_orders_fours (r : Round) (t : Trick) :
  reversals_enabled (ruleset r) = true -> trick_type t = FourOfAKind ->
  get_updated_suit_and_rank_order r (Some (FiveCardTrick t)) =
    (rev (suit_order r), rev (rank_order r)).
Proof.
  intros He Ht. destruct t as [tt tc]; simpl in Ht; subst tt.
  unfold get_updated_suit_and_rank_order; rewrite He; reflexivity.
Qed.

(** X10: with reversals enabled, two accepted four-of-a-kind moves in a row
    reverse both orders and then restore them. *)
Theorem four_of_a_kind_twice_restores_orders sort_cards counts_order compare_hands
    (fuel : nat) (r : Round) (u1 : string) (cs1 : list PlayedCard) (r1 : Round)
    (u2 : string) (cs2 : list PlayedCard) (r2 : Round) (t1 t2 : Trick) :
  reversals_enabled (ruleset r) = true ->
  build sort_cards counts_order cs1 = Returns (Some (FiveCardTrick t1)) ->
  trick_type t1 = FourOfAKind ->
  build sort_cards counts_order cs2 = Returns (Some (FiveCardTrick t2)) ->
  trick_type t2 = FourOfAKind ->
  submit_move sort_cards counts_order compare_hands fuel r u1 cs1 = Returns (Ok r1) ->
  submit_move sort_cards counts_order compare_hands fuel r1 u2 cs2 = Returns (Ok r2) ->
  suit_order r1 = rev (suit_order r) /\ rank_order r1 = rev (rank_order r) /\
  suit_order r2 = suit_order r /\ rank_order r2 = rank_order r.
Proof.
  intros He Hb1 Ht1 Hb2 Ht2 E1 E2.
  destruct (submit_orders _ _ _ _ _ _ _ _ _ E1 Hb1) as [Hrs1 Ho1].
  destruct (submit_orders _ _ _ _ _ _ _ _ _ E2 Hb2) as [_ Ho2].
  rewrite reverse_orders_fours in Ho1 by assumption.
  rewrite reverse_orders_fours in Ho2 by first [assumption | rewrite Hrs1; assumption].
  injection Ho1 as Hs1 Hr1. injection Ho2 as Hs2 Hr2.
  rewrite Hs2, Hr2, Hs1, Hr1, !rev_involutive. auto.
Qed.

Lemma four_of_a_kind_twice_restores_orders_witness :
  exists r1 r2,
    submit_move sort_by_key insertion_order (fun _ _ _ _ _ => true) 3 round_fours "a"%string fours_a
      = Returns (Ok r1) /\
    submit_move sort_by_key insertion_order (fun _ _ _ _ _ => true) 3 r1 "b"%string fours_b
      = Returns (Ok r2) /\
    suit_order r2 = std_suits /\ rank_order r2 = std_ranks.
Proof.
  destruct (submit_move sort_by_key insertion_order (fun _ _ _ _ _ => true) 3 round_fours
              "a"%string fours_a) as [[r1 | e] | msg |] eqn:E1;
    try (vm_compute in E1; discriminate).
  destruct (submit_move sort_by_key insertion_order (fun _ _ _ _ _ => true) 3 r1
              "b"%string fours_b) as [[r2 | e] | msg |] eqn:E2;
    try (pose proof E1 as E1'; vm_compute in E1'; injection E1' as <-;
         vm_compute in E2; discriminate).
  exists r1, r2. split; [reflexivity | split; [exact E2 |]].
  destruct (four_of_a_kind_twice_restores_orders sort_by_key insertion_order
              (fun _ _ _ _ _ => true) 3 round_fours "a"%string fours_a r1 "b"%string fours_b r2
              (mkTrick FourOfAKind (sort_by_key fours_a)) (mkTrick FourOfAKind (sort_by_key fours_b))
              eq_refl eq_refl eq_refl eq_refl eq_refl E1 E2) as (_ & _ & Hs & Hr).
  rewrite Hs, Hr. split; reflexivity.
Defined.
